(** * paper_markdown_text_classifier: a shallow embedding and its properties

    The Python module [paper_markdown_text_classifier.py] triages Word
    documents: it extracts their text, keeps the Chinese ones, asks a
    pre-trained classifier (or a file-name heuristic) whether the document is an
    examination paper, copies the accepted files into a mirrored output tree and
    logs its decisions.

    Python strings are modelled as lists of Unicode code points ([Z]); the
    functions of the module keep their names.  Library code the module calls
    (the [re] engine, [str.splitlines], [str.strip]) is modelled next to
    it; code that is opaque to the module (document parsers, the classifier,
    the file system, the HTTP server) is a section variable. *)

From Stdlib Require Import ZArith List Bool Lia Ascii String.
From Stdlib Require Import Floats.SpecFloat.
Import ListNotations.

Local Open Scope Z_scope.
Local Open Scope list_scope.

Set Implicit Arguments.

(* ================================================================== *)
(** * Python strings *)

(** A [str] is its sequence of code points. *)
Definition str := list Z.

(** An ASCII literal as a [str]. *)
Definition py (s : string) : str :=
  map (fun a => Z.of_N (N_of_ascii a)) (list_ascii_of_string s).

Fixpoint str_eqb (a b : str) : bool :=
  match a, b with
  | [], [] => true
  | x :: a', y :: b' => (x =? y) && str_eqb a' b'
  | _, _ => false
  end.

(** [x in l] for a list (or set) [l] of strings. *)
Definition str_in_list (x : str) (l : list str) : bool := existsb (str_eqb x) l.

(** [s.startswith(p)]. *)
Fixpoint startswith (p s : str) : bool :=
  match p, s with
  | [], _ => true
  | x :: p', y :: s' => (x =? y) && startswith p' s'
  | _ :: _, [] => false
  end.

(** [sub in s] for two strings: the substring test. *)
Fixpoint str_contains (sub s : str) : bool :=
  startswith sub s ||
  match s with
  | [] => false
  | _ :: s' => str_contains sub s'
  end.

(** [a <= b] on strings: lexicographic order on code points. *)
Fixpoint str_leb (a b : str) : bool :=
  match a, b with
  | [], _ => true
  | _ :: _, [] => false
  | x :: a', y :: b' => (x <? y) || ((x =? y) && str_leb a' b')
  end.

(** [sep.join(l)]. *)
Fixpoint str_join (sep : str) (l : list str) : str :=
  match l with
  | [] => []
  | x :: rest =>
      match rest with
      | [] => x
      | _ :: _ => x ++ sep ++ str_join sep rest
      end
  end.

(** [s.split(sep)] for a one-character separator; [cur] is the piece being
    read, most recent character first. *)
Fixpoint str_split_aux (sep : Z) (cur : str) (s : str) : list str :=
  match s with
  | [] => [rev cur]
  | c :: s' =>
      if c =? sep then rev cur :: str_split_aux sep [] s'
      else str_split_aux sep (c :: cur) s'
  end.

Definition str_split (sep : Z) (s : str) : list str := str_split_aux sep [] s.

(** [s.replace(a, b)] for one-character [a] and [b]. *)
Definition str_replace_char (a b : Z) (s : str) : str :=
  map (fun c => if c =? a then b else c) s.

(** The line boundaries of [str.splitlines]. *)
Definition is_linebreak (c : Z) : bool :=
  existsb (Z.eqb c) [10; 11; 12; 13; 28; 29; 30; 133; 8232; 8233].

(** [s.splitlines()]: a carriage return followed by a line feed is one
    boundary, and a final boundary opens no further line. *)
Fixpoint splitlines_aux (cur : str) (s : str) : list str :=
  match s with
  | [] => match cur with [] => [] | _ :: _ => [rev cur] end
  | c :: s' =>
      if is_linebreak c then
        match s' with
        | d :: s'' =>
            if (c =? 13) && (d =? 10) then rev cur :: splitlines_aux [] s''
            else rev cur :: splitlines_aux [] s'
        | [] => rev cur :: splitlines_aux [] s'
        end
      else splitlines_aux (c :: cur) s'
  end.

Definition splitlines (s : str) : list str := splitlines_aux [] s.

(** The characters [str.isspace] accepts, which [str.strip] removes. *)
Definition is_space (c : Z) : bool :=
  ((9 <=? c) && (c <=? 13)) || ((28 <=? c) && (c <=? 32)) ||
  (c =? 133) || (c =? 160) || (c =? 5760) ||
  ((8192 <=? c) && (c <=? 8202)) ||
  (c =? 8232) || (c =? 8233) || (c =? 8239) || (c =? 8287) || (c =? 12288).

Fixpoint lstrip (s : str) : str :=
  match s with
  | [] => []
  | c :: s' => if is_space c then lstrip s' else s
  end.

Definition rstrip (s : str) : str := rev (lstrip (rev s)).

(** [s.strip()]. *)
Definition strip (s : str) : str := rstrip (lstrip s).

(* ================================================================== *)
(** * The fragment of [re] the module uses *)

Module Re.

(** One-character patterns: a literal, [.] (anything but a line feed), and
    a character class [[...]]. *)
Inductive atom :=
| Lit (c : Z)
| Dot
| Class (cs : list Z).

Definition atom_ok (a : atom) (c : Z) : bool :=
  match a with
  | Lit d => c =? d
  | Dot => negb (c =? 10)
  | Class cs => existsb (Z.eqb c) cs
  end.

(** Patterns: concatenation, ordered alternation [|] and the lazy
    repetition [*?] of a one-character pattern. *)
Inductive regex :=
| Eps
| One (a : atom)
| LazyStar (a : atom)
| Cat (r1 r2 : regex)
| Alt (r1 r2 : regex).

(** The backtracking matcher, in continuation-passing style: [k n s] is
    the rest of the match once [n] characters are consumed and [s] is left.
    A lazy repetition tries the continuation before it takes one more
    character. *)
Fixpoint lazy_star (a : atom) (k : nat -> str -> option nat) (n : nat) (s : str)
  : option nat :=
  match k n s with
  | Some m => Some m
  | None =>
      match s with
      | c :: s' => if atom_ok a c then lazy_star a k (S n) s' else None
      | [] => None
      end
  end.

Fixpoint rmatch (r : regex) (k : nat -> str -> option nat) (n : nat) (s : str)
  : option nat :=
  match r with
  | Eps => k n s
  | One a =>
      match s with
      | c :: s' => if atom_ok a c then k (S n) s' else None
      | [] => None
      end
  | LazyStar a => lazy_star a k n s
  | Cat r1 r2 => rmatch r1 (rmatch r2 k) n s
  | Alt r1 r2 =>
      match rmatch r1 k n s with
      | Some m => Some m
      | None => rmatch r2 k n s
      end
  end.

(** [re.match(r, s)]: the length of the match at the start of [s]. *)
Definition re_match (r : regex) (s : str) : option nat :=
  rmatch r (fun n _ => Some n) 0%nat s.

(** [re.search(r, s) is not None]. *)
Fixpoint re_search (r : regex) (s : str) : bool :=
  match re_match r s with
  | Some _ => true
  | None =>
      match s with
      | [] => false
      | _ :: s' => re_search r s'
      end
  end.

(** [re.sub] with the empty string as replacement: the matches are
    found left to right and do not overlap; [skip] counts the characters of
    the current match still to drop.  An empty match is replaced by nothing
    and drops nothing. *)
Fixpoint re_sub_aux (r : regex) (skip : nat) (s : str) : str :=
  match s with
  | [] => []
  | c :: s' =>
      match skip with
      | S j => re_sub_aux r j s'
      | O =>
          match re_match r s with
          | Some (S j) => re_sub_aux r j s'
          | _ => c :: re_sub_aux r 0%nat s'
          end
      end
  end.

Definition re_sub (r : regex) (s : str) : str := re_sub_aux r 0%nat s.

(** A sequence of patterns, and a literal word. *)
Definition seq (rs : list regex) : regex := fold_right Cat Eps rs.
Definition word (s : string) : regex := seq (map (fun c => One (Lit c)) (py s)).

End Re.

Import Re.

(* ================================================================== *)
(** * Text normalisation *)

(** The quotation mark of the [width="..."] attribute. *)
Definition quote : regex := One (Lit 34).

(** The three alternatives of the pattern of [remove_image_string]:
    an image with its size attributes, a plain image, a bracket-brace
    span. *)
Definition image_with_size : regex :=
  seq [word "!["; LazyStar Dot; word "]("; LazyStar Dot; word "){width=";
       quote; LazyStar Dot; quote; word " height="; quote; LazyStar Dot;
       quote; word "}"].

Definition image_plain : regex :=
  seq [word "!["; LazyStar Dot; word "]("; LazyStar Dot; word ")"].

Definition bracket_brace : regex :=
  seq [word "["; LazyStar Dot; word "]{"; LazyStar Dot; word "}"].

Definition image_pattern : regex :=
  Alt image_with_size (Alt image_plain bracket_brace).

Definition remove_image_string (input_string : str) : str :=
  re_sub image_pattern input_string.

(** The character class [[>*|image|data|media|png]], letter by letter as
    the source writes it. *)
Definition noise_class : list Z := py ">*|image|data|media|png".

Definition noise_pattern : regex := One (Class noise_class).

Definition remove_noise_character (input_string : str) : str :=
  re_sub noise_pattern input_string.

(** The body of the loop of [one_text_pre_process]: [acc] is
    [precessed_text_split_lines]. *)
Definition pre_process_line (acc : list str) (line : str) : list str :=
  let remove_image_line := remove_image_string line in
  if str_in_list (strip remove_image_line) [py EmptyString; py ">"] then acc
  else acc ++ [remove_noise_character remove_image_line].

(** The lines are joined by line feeds. *)
Definition one_text_pre_process (text : str) : str :=
  str_join [10] (fold_left pre_process_line (splitlines text) []).

Definition pre_process (text_list : list str) : list str :=
  map one_text_pre_process text_list.

(** The lines [one_text_pre_process] keeps, and what it makes of them. *)
Definition kept_line (line : str) : bool :=
  negb (str_in_list (strip (remove_image_string line)) [py EmptyString; py ">"]).

Definition clean_line (line : str) : str :=
  remove_noise_character (remove_image_string line).

(* ================================================================== *)
(** * Exceptions and fallible calls *)

(** The exceptions the module raises itself, and [OtherError] for those a
    library call raises (a parser, the classifier, the file system, the
    network). *)
Inductive exn :=
| ValueError (msg : str)
| UnboundLocalError
| IndexError
| AttributeError
| OtherError (code : nat).

Inductive result (A : Type) :=
| Ok (a : A)
| Raise (e : exn).

Arguments Ok {A} a.
Arguments Raise {A} e.

Definition bind {A B : Type} (r : result A) (f : A -> result B) : result B :=
  match r with
  | Ok a => f a
  | Raise e => Raise e
  end.

Notation "x <- r ;; k" := (bind r (fun x => k))
  (at level 61, r at next level, right associativity).

(* ================================================================== *)
(** * Probabilities *)

(** A probability and the threshold are IEEE 754 binary floats; only their
    comparison is used. *)
Definition float := spec_float.

(** [a > b] on floats. *)
Definition float_gt (a b : float) : bool := SFltb b a.

(** [a == b] on floats. *)
Definition float_eq (a b : float) : bool := SFeqb a b.

(** The classifier as the module sees it: [model.predict_proba], which
    returns one row (negative-class, positive-class probability) per
    input text. *)
Definition classifier := list str -> result (list (float * float)).

(** [get_predict_with_threshold]: column 1 of the probabilities, and the
    labels [(positive_probabilities > threshold).astype(int)]. *)
Definition get_predict_with_threshold
    (model : classifier) (X : list str) (threshold : float)
  : result (list Z * list float) :=
  probabilities <- model X ;;
  let positive_probabilities := map snd probabilities in
  let predictions :=
    map (fun p => if float_gt p threshold then 1 else 0) positive_probabilities in
  Ok (predictions, positive_probabilities).

(* ================================================================== *)
(** * What the module takes from its libraries and from the system *)

(** The file system is a state of type [FS].  A path of the input tree is
    never overwritten by the module (a copy is made only to a path that does
    not exist), so what a document parses to is a function of its path. *)
Record Env (FS : Type) := {
  (** [os.path.exists], [os.path.abspath], [os.path.splitext],
      [os.path.join], [os.path.relpath] *)
  os_path_exists : FS -> str -> bool;
  os_path_abspath : str -> str;
  os_path_splitext : str -> str * str;
  os_path_join : str -> str -> str;
  os_path_relpath : str -> str -> str;
  (** [os.walk]: the (root, files) of every directory under a root *)
  os_walk : FS -> str -> list (str * list str);
  (** [os.makedirs(d, exist_ok=True)] *)
  os_makedirs : FS -> str -> result FS;
  (** [Path(d).mkdir(parents=True, exist_ok=True)] *)
  path_mkdir : FS -> str -> result FS;
  (** [shutil.copy(src, dst)] *)
  shutil_copy : FS -> str -> str -> result FS;
  (** [Document(p).paragraphs], each paragraph by its text *)
  docx_paragraphs : str -> result (list str);
  (** [textract.process(p)], a byte string *)
  textract_process : str -> result (list Z);
  (** [bytes.decode("utf-8")] *)
  bytes_decode_utf8 : list Z -> result str;
  (** [str.lower] on a one-character string (the Unicode case table) *)
  str_lower : Z -> str
}.

(* ================================================================== *)
(** * Language detection *)

Inductive language := Chinese | English | Unknown.

Definition language_eqb (a b : language) : bool :=
  match a, b with
  | Chinese, Chinese | English, English | Unknown, Unknown => true
  | _, _ => false
  end.

(** One turn of the loop of [detect_language] on the two counters. *)
Definition detect_language_step (lower : Z -> str) (counts : nat * nat) (char : Z)
  : nat * nat :=
  let (chinese_count, english_count) := counts in
  if str_leb [0x4e00] [char] && str_leb [char] [0x9fff] then
    (S chinese_count, english_count)
  else if str_leb (py "a") (lower char) && str_leb (lower char) (py "z") then
    (chinese_count, S english_count)
  else counts.

Definition detect_language (lower : Z -> str) (text : str) : language :=
  let (chinese_count, english_count) :=
    fold_left (detect_language_step lower) text (0%nat, 0%nat) in
  if (english_count <? chinese_count)%nat then Chinese
  else if (chinese_count <? english_count)%nat then English
  else Unknown.

(* ================================================================== *)
(** * Text extraction *)

Section Extraction.

Variable FS : Type.
Variable E : Env FS.

(** Every paragraph text is followed by one space. *)
Definition extract_text_from_docx (file_path : str) : result str :=
  paragraphs <- docx_paragraphs E file_path ;;
  Ok (fold_left (fun text paragraph => text ++ paragraph ++ py " ") paragraphs []).

Definition extract_text_from_doc (file_path : str) : result str :=
  text <- textract_process E file_path ;;
  bytes_decode_utf8 E text.

(** [ext in "docx"] is the substring test. *)
Definition extract_text (file_local ext : str) : result str :=
  if str_contains ext (py "docx") then extract_text_from_docx file_local
  else extract_text_from_doc file_local.

End Extraction.

(* ================================================================== *)
(** * The file-name heuristic *)

Definition EXAMINATION_KEY_WORDS : list str :=
  [[32771; 35797]; [35797; 21367]; [21367]; [35797; 39064]; [35797]].

Definition judge_examination_paper_by_file_name (file_name : str) : bool :=
  existsb (fun key_word => str_contains key_word file_name) EXAMINATION_KEY_WORDS.

Definition FILE_SUFFIX : list str := [py ".doc"; py ".docx"].

(* ================================================================== *)
(** * The batch driver *)

(** [predict] is a Python [bool] after the heuristic and an integer after
    the classifier. *)
Inductive pyval :=
| PBool (b : bool)
| PInt (z : Z).

Definition truthy (v : pyval) : bool :=
  match v with
  | PBool b => b
  | PInt z => negb (z =? 0)
  end.

(** A line of [move_log.log], by its three fields. *)
Record log_line := {
  line_predict : pyval;
  line_probability : float;
  line_path : str
}.

(** The calls the driver makes for a file, in the order it makes them. *)
Inductive event :=
| CallExtract (file_local ext : str)
| CallPredict (X : list str)
| CallCopy (src dst : str).

(** What a run can change: the file system, the two log files (kept apart
    from the file system: they live in the working directory), and the
    record of the calls made. *)
Record world (FS : Type) := {
  fs : FS;
  name_log : list str;
  move_log : list log_line;
  events : list event
}.

Definition set_fs {FS} (w : world FS) (f : FS) : world FS :=
  {| fs := f; name_log := name_log w; move_log := move_log w; events := events w |}.

Definition add_event {FS} (w : world FS) (e : event) : world FS :=
  {| fs := fs w; name_log := name_log w; move_log := move_log w;
     events := events w ++ [e] |}.

(** [write_classification_by_file_name_log]: one line appended to
    [file_name_classification.log]. *)
Definition write_classification_by_file_name_log {FS} (w : world FS) (file_name : str)
  : world FS :=
  {| fs := fs w; name_log := name_log w ++ [file_name]; move_log := move_log w;
     events := events w |}.

Definition write_move_log {FS} (w : world FS) (l : log_line) : world FS :=
  {| fs := fs w; name_log := name_log w; move_log := move_log w ++ [l];
     events := events w |}.

Inductive outcome :=
| Done
| Raised (e : exn).

(** After one file: go on with the next one, or an exception leaves the
    loop.  [positive_probabilities] is a local variable of [move_files] that
    outlives the turn of the loop that assigns it; [None] is unassigned. *)
Inductive flow (FS : Type) :=
| Next (w : world FS) (positive_probabilities : option (list float))
| Abort (w : world FS) (e : exn).

Arguments Next {FS} w positive_probabilities.
Arguments Abort {FS} w e.

Definition ValueError_no_input : exn :=
  ValueError [36755; 20837; 30446; 24405; 19981; 23384; 22312].

Definition ValueError_same_dirs : exn :=
  ValueError [36755; 20837; 30446; 24405; 21644; 36755; 20986; 30446; 24405;
              19981; 33021; 30456; 21516].

Section MoveFiles.

Variable FS : Type.
Variable E : Env FS.

Variables input_dir output_dir : str.
Variable threshold : float.
Variable model : classifier.
Variable just_by_file_name : bool.

(** The paths of a row of [all_file]. *)
Definition ext_of (row : str * str) : str := snd (os_path_splitext E (snd row)).

Definition file_local_of (row : str * str) : str :=
  let file_local := os_path_join E (fst row) (snd row) in
  if str_contains (py "\") file_local then str_replace_char 92 47 file_local
  else file_local.

Definition target_dir_of (row : str * str) : str :=
  os_path_join E output_dir (os_path_relpath E (fst row) input_dir).

Definition target_file_of (row : str * str) : str :=
  os_path_join E (target_dir_of row) (last (str_split 47 (file_local_of row)) []).

(** [ext in FILE_SUFFIX]. *)
Definition supported (row : str * str) : Prop :=
  str_in_list (ext_of row) FILE_SUFFIX = true.

(** Lines 333-335: the copy, when [predict] is true. *)
Definition copy_if_predicted (w : world FS) (predict : pyval) (row : str * str)
  : world FS * option exn :=
  if truthy predict then
    match path_mkdir E (fs w) (target_dir_of row) with
    | Raise e => (w, Some e)
    | Ok fs1 =>
        let w1 := add_event (set_fs w fs1)
                            (CallCopy (file_local_of row) (target_file_of row)) in
        match shutil_copy E fs1 (file_local_of row) (target_file_of row) with
        | Raise e => (w1, Some e)
        | Ok fs2 => (set_fs w1 fs2, None)
        end
    end
  else (w, None).

(** Lines 337-338: the line of the move log; the probability is read from
    [positive_probabilities], whichever turn assigned it. *)
Definition log_move (w : world FS) (predict : pyval)
    (positive_probabilities : option (list float)) (row : str * str) : flow FS :=
  match positive_probabilities with
  | None => Abort w UnboundLocalError
  | Some [] => Abort w IndexError
  | Some (p :: _) =>
      Next (write_move_log w
              {| line_predict := predict; line_probability := p;
                 line_path := file_local_of row |})
           positive_probabilities
  end.

Definition copy_and_log (w : world FS) (predict : pyval)
    (positive_probabilities : option (list float)) (row : str * str) : flow FS :=
  match copy_if_predicted w predict row with
  | (w1, Some e) => Abort w1 e
  | (w1, None) => log_move w1 predict positive_probabilities row
  end.

(** Lines 322-330: the decision, by the file name or by the classifier. *)
Definition classify_and_act (w : world FS)
    (positive_probabilities : option (list float)) (row : str * str) (text : str)
  : flow FS :=
  if just_by_file_name || (Z.of_nat (List.length text) <? 50) then
    let predict := judge_examination_paper_by_file_name (snd row) in
    let w1 := if predict
              then write_classification_by_file_name_log w (target_file_of row)
              else w in
    copy_and_log w1 (PBool predict) positive_probabilities row
  else
    let X := [one_text_pre_process text] in
    let w1 := add_event w (CallPredict X) in
    match get_predict_with_threshold model X threshold with
    | Raise e => Abort w1 e
    | Ok (predictions, positive_probabilities') =>
        match predictions with
        | [] => Abort w1 IndexError
        | predict :: _ =>
            copy_and_log w1 (PInt predict) (Some positive_probabilities') row
        end
    end.

(** One turn of the loop over [all_file] (lines 289-338). *)
Definition process_row (w : world FS)
    (positive_probabilities : option (list float)) (row : str * str) : flow FS :=
  if negb (str_in_list (ext_of row) FILE_SUFFIX) then Next w positive_probabilities
  else if os_path_exists E (fs w) (target_file_of row) then Next w positive_probabilities
  else
    let w1 := add_event w (CallExtract (file_local_of row) (ext_of row)) in
    match extract_text E (file_local_of row) (ext_of row) with
    | Raise _ => Next w1 positive_probabilities
    | Ok text =>
        if negb (language_eqb (detect_language (str_lower E) text) Chinese)
        then Next w1 positive_probabilities
        else classify_and_act w1 positive_probabilities row text
    end.

Fixpoint move_files_loop (w : world FS)
    (positive_probabilities : option (list float)) (all_file : list (str * str))
  : world FS * outcome :=
  match all_file with
  | [] => (w, Done)
  | row :: rest =>
      match process_row w positive_probabilities row with
      | Next w' pp' => move_files_loop w' pp' rest
      | Abort w' e => (w', Raised e)
      end
  end.

(** The rows of [all_file], in the order of the walk. *)
Definition all_file_of (walk : list (str * list str)) : list (str * str) :=
  flat_map (fun entry => map (fun file => (fst entry, file)) (snd entry)) walk.

Definition move_files (w : world FS) : world FS * outcome :=
  if negb (os_path_exists E (fs w) input_dir) then (w, Raised ValueError_no_input)
  else if str_eqb (os_path_abspath E input_dir) (os_path_abspath E output_dir)
  then (w, Raised ValueError_same_dirs)
  else
    match os_makedirs E (fs w) output_dir with
    | Raise e => (w, Raised e)
    | Ok fs1 =>
        move_files_loop (set_fs w fs1) None (all_file_of (os_walk E fs1 input_dir))
    end.

(** The world a turn of the loop leaves. *)
Definition world_of (f : flow FS) : world FS :=
  match f with
  | Next w _ => w
  | Abort w _ => w
  end.

(** Whether the driver decides to copy a file with the text [text], and
    the line of the move log when the classifier decides: both are read off
    lines 322-338 and depend on the file only. *)
Definition by_file_name (text : str) : bool :=
  just_by_file_name || (Z.of_nat (List.length text) <? 50).

Definition accepts_text (row : str * str) (text : str) : bool :=
  if by_file_name text then judge_examination_paper_by_file_name (snd row)
  else
    match get_predict_with_threshold model [one_text_pre_process text] threshold with
    | Ok (predict :: _, _) => truthy (PInt predict)
    | _ => false
    end.

Definition model_line_text (row : str * str) (text : str) : option log_line :=
  if by_file_name text then None
  else
    match get_predict_with_threshold model [one_text_pre_process text] threshold with
    | Ok (predict :: _, p :: _) =>
        Some {| line_predict := PInt predict; line_probability := p;
                line_path := file_local_of row |}
    | _ => None
    end.

(** The text of a row that passes extraction and language detection. *)
Definition chinese_text (row : str * str) : option str :=
  match extract_text E (file_local_of row) (ext_of row) with
  | Raise _ => None
  | Ok text =>
      if negb (language_eqb (detect_language (str_lower E) text) Chinese) then None
      else Some text
  end.

Definition accepts (row : str * str) : bool :=
  match chinese_text row with
  | Some text => accepts_text row text
  | None => false
  end.

Definition model_line (row : str * str) : option log_line :=
  match chinese_text row with
  | Some text => model_line_text row text
  | None => None
  end.

(** Paths that exist in [w] exist in [w']. *)
Definition keeps (w w' : world FS) : Prop :=
  forall p, os_path_exists E (fs w) p = true -> os_path_exists E (fs w') p = true.






End MoveFiles.

(** What the claims on repeated runs take from the file system: a copy
    makes its target exist, copies and directory creations remove nothing,
    and creating a directory that exists changes nothing. *)
Record FSLaws (FS : Type) (E : Env FS) : Prop := {
  copy_creates : forall f src dst f',
    shutil_copy E f src dst = Ok f' -> os_path_exists E f' dst = true;
  copy_keeps : forall f src dst f' p,
    shutil_copy E f src dst = Ok f' ->
    os_path_exists E f p = true -> os_path_exists E f' p = true;
  mkdir_keeps : forall f d f' p,
    path_mkdir E f d = Ok f' ->
    os_path_exists E f p = true -> os_path_exists E f' p = true;
  makedirs_creates : forall f d f',
    os_makedirs E f d = Ok f' -> os_path_exists E f' d = true;
  makedirs_existing : forall f d f',
    os_makedirs E f d = Ok f' -> os_path_exists E f d = true -> f' = f
}.

(* ================================================================== *)
(** * Model acquisition *)

(** The response to [requests.get(url, headers={'Range': 'bytes=S-'},
    stream=True)]: what [raise_for_status] raises, the [content-range]
    header, the chunks [iter_content] yields, and the exception that ends the
    stream early, when there is one. *)
Record response := {
  status_error : option exn;
  content_range : option str;
  chunks : list (list Z);
  stream_error : option exn
}.

(** The files [download_model] touches, by name: the bytes of each. *)
Definition files := str -> option (list Z).

Definition file_write (f : files) (name : str) (data : list Z) : files :=
  fun n => if str_eqb n name then Some data else f n.

Definition file_remove (f : files) (name : str) : files :=
  fun n => if str_eqb n name then None else f n.

(** What a call leaves behind: the files, how it ended, and whether the
    error message of line 203 was printed. *)
Record download := {
  dl_files : files;
  dl_outcome : outcome;
  dl_printed_error : bool
}.

Section DownloadModel.

(** [requests.get] for a URL and the first byte of the range. *)
Variable requests_get : str -> Z -> result response.

(** [int] on a string. *)
Variable int_of_str : str -> result Z.

Definition raised (f : files) (e : exn) : download :=
  {| dl_files := f; dl_outcome := Raised e; dl_printed_error := false |}.

Definition download_model (model_name download_url : str) (f : files) : download :=
  match f model_name with
  | Some _ => {| dl_files := f; dl_outcome := Done; dl_printed_error := false |}
  | None =>
      let temp_model_name := model_name ++ py ".tmp" in
      let initial_position :=
        match f temp_model_name with
        | Some data => Z.of_nat (List.length data)
        | None => 0
        end in
      match requests_get download_url initial_position with
      | Raise e => raised f e
      | Ok response =>
          match status_error response with
          | Some e => raised f e
          | None =>
              match content_range response with
              | None => raised f AttributeError
              | Some header =>
                  match nth_error (str_split 47 header) 1 with
                  | None => raised f IndexError
                  | Some size =>
                      match int_of_str size with
                      | Raise e => raised f e
                      | Ok total_size =>
                          (* open(temp_model_name, 'ab') and the writes *)
                          let old :=
                            match f temp_model_name with
                            | Some data => data
                            | None => []
                            end in
                          let f1 :=
                            file_write f temp_model_name
                                       (old ++ List.concat (chunks response)) in
                          let n :=
                            fold_left (fun n data => n + Z.of_nat (List.length data))
                                      (chunks response) initial_position in
                          match stream_error response with
                          | Some e => raised f1 e
                          | None =>
                              (* os.rename(temp_model_name, model_name) *)
                              {| dl_files :=
                                   file_write (file_remove f1 temp_model_name) model_name
                                              (old ++ List.concat (chunks response));
                                 dl_outcome := Done;
                                 dl_printed_error :=
                                   negb (total_size =? 0) && negb (n =? total_size) |}
                          end
                      end
                  end
              end
          end
      end
  end.

End DownloadModel.

(* ================================================================== *)
(** * A concrete system, to run the module on *)

Module Demo.

(** UTF-8 decoding as [bytes.decode("utf-8")] does it: shortest forms
    only, no surrogates, nothing above U+10FFFF. *)
Definition UnicodeDecodeError : exn := OtherError 0.

Definition continuation (b : Z) : bool := (0x80 <=? b) && (b <=? 0xBF).

Fixpoint utf8_decode (b : list Z) : result str :=
  match b with
  | [] => Ok []
  | b0 :: r0 =>
      if (0 <=? b0) && (b0 <? 0x80) then
        rest <- utf8_decode r0 ;; Ok (b0 :: rest)
      else if (0xC2 <=? b0) && (b0 <=? 0xDF) then
        match r0 with
        | b1 :: r1 =>
            if continuation b1 then
              rest <- utf8_decode r1 ;;
              Ok (((b0 - 0xC0) * 64 + (b1 - 0x80)) :: rest)
            else Raise UnicodeDecodeError
        | _ => Raise UnicodeDecodeError
        end
      else if (0xE0 <=? b0) && (b0 <=? 0xEF) then
        match r0 with
        | b1 :: b2 :: r2 =>
            if continuation b1 && continuation b2
               && negb ((b0 =? 0xE0) && (b1 <? 0xA0))
               && negb ((b0 =? 0xED) && (0x9F <? b1)) then
              rest <- utf8_decode r2 ;;
              Ok (((b0 - 0xE0) * 4096 + (b1 - 0x80) * 64 + (b2 - 0x80)) :: rest)
            else Raise UnicodeDecodeError
        | _ => Raise UnicodeDecodeError
        end
      else if (0xF0 <=? b0) && (b0 <=? 0xF4) then
        match r0 with
        | b1 :: b2 :: b3 :: r3 =>
            if continuation b1 && continuation b2 && continuation b3
               && negb ((b0 =? 0xF0) && (b1 <? 0x90))
               && negb ((b0 =? 0xF4) && (0x8F <? b1)) then
              rest <- utf8_decode r3 ;;
              Ok (((b0 - 0xF0) * 262144 + (b1 - 0x80) * 4096
                   + (b2 - 0x80) * 64 + (b3 - 0x80)) :: rest)
            else Raise UnicodeDecodeError
        | _ => Raise UnicodeDecodeError
        end
      else Raise UnicodeDecodeError
  end.

(** The rows of the Unicode case table whose lowercase form starts with an
    ASCII letter: the ASCII letters themselves, U+0130 (LATIN CAPITAL LETTER I
    WITH DOT ABOVE, which lowers to [i] and U+0307) and U+212A (KELVIN SIGN,
    which lowers to [k]).  The lowercase form of any other character does
    not start with an ASCII letter, and the character itself stands for
    it. *)
Definition lower_table (c : Z) : str :=
  if (65 <=? c) && (c <=? 90) then [c + 32]
  else if c =? 0x130 then [0x69; 0x307]
  else if c =? 0x212A then [0x6B]
  else [c].

(** A file system as the list of the paths that exist. *)
Definition paths := list str.

Definition add_path (f : paths) (p : str) : paths :=
  if str_in_list p f then f else p :: f.

(** POSIX [os.path.join] for a relative second path and a first one that
    does not end in a slash. *)
Definition join (a b : str) : str := a ++ py "/" ++ b.

(** [os.path.splitext] for a plain file name that does not start with a
    dot. *)
Definition splitext (p : str) : str * str :=
  match rev (str_split 46 p) with
  | ext :: (_ :: _) as front => (str_join (py ".") (rev front), 46 :: ext)
  | _ => (p, [])
  end.

(** [os.path.relpath] for a directory at or directly under [start]. *)
Definition relpath (root start : str) : str :=
  if str_eqb root start then py "."
  else skipn (List.length start + 1) root.

(** The documents of the input directory [in], by the bytes
    [textract.process] returns for them: [long.doc] and [exam.doc] hold
    sixty times the character U+8BD5, [short.doc] holds three, [latin.doc]
    holds ASCII letters, and nothing else can be parsed. *)
Definition shi : list Z := [0xE8; 0xAF; 0x95].

Definition documents (p : str) : result (list Z) :=
  if str_eqb p (py "in/long.doc") || str_eqb p (py "in/exam.doc")
  then Ok (List.concat (repeat shi 60))
  else if str_eqb p (py "in/short.doc") then Ok (List.concat (repeat shi 3))
  else if str_eqb p (py "in/latin.doc") then Ok (py "plain words")
  else Raise (OtherError 1).

(** The system: [walk] is what [os.walk] lists, [copy_error] what
    [shutil.copy] raises, if it does. *)
Definition env (walk : list (str * list str)) (copy_error : option exn) : Env paths :=
  {| os_path_exists := fun f p => str_in_list p f;
     os_path_abspath := fun p => p;
     os_path_splitext := splitext;
     os_path_join := join;
     os_path_relpath := relpath;
     os_walk := fun _ _ => walk;
     os_makedirs := fun f d => Ok (add_path f d);
     path_mkdir := fun f d => Ok (add_path f d);
     shutil_copy := fun f _ dst =>
       match copy_error with
       | Some e => Raise e
       | None => Ok (add_path f dst)
       end;
     docx_paragraphs := fun _ => Raise (OtherError 2);
     textract_process := documents;
     bytes_decode_utf8 := utf8_decode;
     str_lower := lower_table |}.

(** What [os.walk] lists: the input directory with one document, and with
    two. *)
Definition one_doc : list (str * list str) := [(py "in", [py "long.doc"])].

Definition two_docs : list (str * list str) :=
  [(py "in", [py "long.doc"; py "short.doc"])].

(** Binary64 numbers: 0.25, 0.5 and 0.75. *)
Definition quarter : float := S754_finite false 4503599627370496 (-54).
Definition half : float := S754_finite false 4503599627370496 (-53).
Definition three_quarters : float := S754_finite false 6755399441055744 (-53).

(** A classifier that gives every text the positive probability [p], and
    one that fails. *)
Definition constant_model (p : float) : classifier :=
  fun X => Ok (map (fun _ => (S754_zero false, p)) X).

Definition broken_model : classifier := fun _ => Raise (OtherError 3).

(** Before a run: the input directory exists, the logs are empty. *)
Definition start : world paths :=
  {| fs := [py "in"]; name_log := []; move_log := []; events := [] |}.

Definition in_dir : str := py "in".
Definition out_dir : str := py "out".

(** A run of [move_files] from [in] to [out] with the threshold 0.5. *)
Definition run (walk : list (str * list str)) (model : classifier)
    (just_by_file_name : bool) (w : world paths) : world paths * outcome :=
  move_files (env walk None) in_dir out_dir half model just_by_file_name w.

(** [int] on a string of decimal digits. *)
Definition int_of_digits (s : str) : result Z :=
  match s with
  | [] => Raise (ValueError [])
  | _ :: _ =>
      fold_left (fun acc c =>
                   n <- acc ;;
                   if (48 <=? c) && (c <=? 57) then Ok (10 * n + (c - 48))
                   else Raise (ValueError []))
                s (Ok 0)
  end.

(** A server that answers a range request from byte 2 of a ten-byte
    artifact with three bytes, and then ends the stream. *)
Definition short_server (url : str) (start : Z) : result response :=
  Ok {| status_error := None;
        content_range := Some (py "bytes 2-9/10");
        chunks := [[7; 7; 7]];
        stream_error := None |}.

(** A text of two lines: the letter a, then a bracket, an image and a
    brace. *)
Definition two_lines : str := py "a" ++ [10] ++ py "[a]![x](y){b}".

(** A partial download of two bytes. *)
Definition partial : files :=
  fun n => if str_eqb n (py "m.pkl.tmp") then Some [7; 7] else None.

(** The download of [m.pkl] from the short server, resumed from the
    partial download. *)
Definition short_download : download :=
  download_model short_server int_of_digits (py "m.pkl") (py "url") partial.

(** The world after a first run that rejects both documents. *)
Definition after_rejections : world paths :=
  fst (run two_docs (constant_model quarter) false start).

(** A document that cannot be parsed. *)
Definition broken_doc : str * str := (py "in", py "broken.doc").

Definition long_doc : str * str := (py "in", py "long.doc").

(** A system in which every document holds three times the character
    U+8BD5, and the input directory lists a document whose name holds that
    character, then [long.doc]. *)
Definition exam_doc : str * str := (py "in", 35797 :: py ".doc").

Definition exam_env : Env paths :=
  {| os_path_exists := fun f p => str_in_list p f;
     os_path_abspath := fun p => p;
     os_path_splitext := splitext;
     os_path_join := join;
     os_path_relpath := relpath;
     os_walk := fun _ _ => [(py "in", [35797 :: py ".doc"; py "long.doc"])];
     os_makedirs := fun f d => Ok (add_path f d);
     path_mkdir := fun f d => Ok (add_path f d);
     shutil_copy := fun f _ dst => Ok (add_path f dst);
     docx_paragraphs := fun _ => Raise (OtherError 2);
     textract_process := fun _ => Ok (List.concat (repeat shi 3));
     bytes_decode_utf8 := utf8_decode;
     str_lower := lower_table |}.

(** The first run in that system: the document is accepted by its name
    and copied, and the run ends with an exception at the line of the move
    log. *)
Definition exam_run (w : world paths) : world paths * outcome :=
  move_files exam_env in_dir out_dir half (constant_model quarter) false w.

Definition after_exam_run : world paths := fst (exam_run start).

(** The world after a first run that accepts [long.doc]. *)
Definition after_first_run : world paths :=
  fst (run one_doc (constant_model three_quarters) false start).

End Demo.

(* ================================================================== *)
(** * The words of the specification *)

(** The noise characters as the specification lists them, and as the
    character class holds them. *)
Definition listed_noise_set : list Z := py ">*|imagedtpnc".
Definition noise_set : list Z := py ">*|imagedtpn".

Definition strip_chars (set : list Z) (s : str) : str :=
  filter (fun c => negb (existsb (Z.eqb c) set)) s.

(** A normalised text as the specification wants it: no match of the
    pattern anywhere, and no line that is empty or a lone [>] once
    trimmed. *)
Definition normalized (out : str) : Prop :=
  re_search image_pattern out = false /\
  forall line, In line (splitlines out) ->
               strip line <> [] /\ strip line <> py ">".

(** The character counts of language detection. *)
Definition is_cjk (c : Z) : bool := (0x4e00 <=? c) && (c <=? 0x9fff).

Definition is_ascii_letter (c : Z) : bool :=
  ((65 <=? c) && (c <=? 90)) || ((97 <=? c) && (c <=? 122)).

(** The characters whose lowercase form lies between [a] and [z]. *)
Definition counts_as_letter (c : Z) : bool :=
  is_ascii_letter c || (c =? 0x130) || (c =? 0x212A).

Definition count (p : Z -> bool) (text : str) : nat := List.length (filter p text).

Definition lower_in_a_z (lower : Z -> str) (c : Z) : bool :=
  str_leb (py "a") (lower c) && str_leb (lower c) (py "z").

(** The label by the two counts. *)
Definition majority (chinese letters : nat) (l : language) : Prop :=
  ((letters < chinese)%nat -> l = Chinese) /\
  ((chinese < letters)%nat -> l = English) /\
  (chinese = letters -> l = Unknown).

(** The label of a probability against a threshold. *)
Definition labelled (threshold p : float) (label : Z) : Prop :=
  (label = 1 <-> float_gt p threshold = true) /\
  (label = 0 <-> float_gt p threshold = false) /\
  (float_eq p threshold = true -> label = 0).

From Stdlib Require Import Permutation.

(* ================================================================== *)
(** * Path rewriting *)

(** [s.replace(old, new)]: the occurrences of [old] are found left to
    right and do not overlap; [skip] counts the characters of the current
    occurrence still to drop.  For an empty [old], [new] is put before every
    character and at the end. *)
Fixpoint str_replace_aux (old new : str) (skip : nat) (s : str) : str :=
  match s with
  | [] => []
  | c :: s' =>
      match skip with
      | S j => str_replace_aux old new j s'
      | O =>
          if startswith old s
          then new ++ str_replace_aux old new (List.length old - 1) s'
          else c :: str_replace_aux old new 0 s'
      end
  end.

Definition str_replace (old new s : str) : str :=
  match old with
  | [] => new ++ flat_map (fun c => c :: new) s
  | _ :: _ => str_replace_aux old new 0 s
  end.

Definition change_last_folder_name (path new_folder_name : str) : str :=
  let folders := str_split 47 path in
  let last_folder := last folders [] in
  let new_path := str_replace last_folder new_folder_name path in
  new_path.

(* ================================================================== *)
(** * Shapes of marked-up text *)

(** The continuation [re_match] ends a match with. *)
Definition match_end : nat -> str -> option nat := fun n _ => Some n.

(** A literal sequence of characters as a pattern. *)
Definition lits (l : list Z) : regex := seq (map (fun c => One (Lit c)) l).

(** A plain image reference, one with its size attributes, and a
    bracket-brace span, written out. *)
Definition plain_image (alt url : str) : str :=
  py "![" ++ alt ++ py "](" ++ url ++ py ")".

Definition sized_image (alt url width height : str) : str :=
  py "![" ++ alt ++ py "](" ++ url ++ py "){width=" ++ [34] ++ width ++ [34]
     ++ py " height=" ++ [34] ++ height ++ [34] ++ py "}".

Definition bracket_span (text attributes : str) : str :=
  py "[" ++ text ++ py "]{" ++ attributes ++ py "}".

(** A text is clean when the normalisation has nothing to do on its
    lines: no line boundary inside a line, no opening bracket, no noise
    character, and something left after trimming. *)
Definition clean_text_line (line : str) : Prop :=
  (forall c, In c line -> is_linebreak c = false) /\
  ~ In 91 line /\
  (forall c, In c noise_set -> ~ In c line) /\
  strip line <> [].

(** The bytes a file holds, none when it does not exist. *)
Definition on_disk (f : files) (name : str) : list Z :=
  match f name with
  | Some data => data
  | None => []
  end.

(** [w'] has the logs and the record of calls of [w], with something
    appended. *)
Definition extends {FS : Type} (w w' : world FS) : Prop :=
  (exists lines, name_log w' = name_log w ++ lines) /\
  (exists lines, move_log w' = move_log w ++ lines) /\
  (exists calls, events w' = events w ++ calls).

(* ================================================================== *)
(** * More sample data *)

Module Sample.

Definition before : str := py "see ".
Definition after : str := py " here".
Definition alt : str := py "fig".
Definition url : str := py "a.png".
Definition width : str := py "1in".
Definition height : str := py "2in".

(** Two clean lines: [Q1 2+2=?] and [B 4]. *)
Definition clean_lines : list str := [py "Q1 2+2=?"; py "B 4"].

(** The system of [Demo], with a document parser that finds two
    paragraphs in every file. *)
Definition paragraphs : list str := [py "Part one"; py "Part two"].

Definition env : Env Demo.paths :=
  let base := Demo.env Demo.one_doc None in
  {| os_path_exists := os_path_exists base;
     os_path_abspath := os_path_abspath base;
     os_path_splitext := os_path_splitext base;
     os_path_join := os_path_join base;
     os_path_relpath := os_path_relpath base;
     os_walk := os_walk base;
     os_makedirs := os_makedirs base;
     path_mkdir := path_mkdir base;
     shutil_copy := shutil_copy base;
     docx_paragraphs := fun _ => Ok paragraphs;
     textract_process := textract_process base;
     bytes_decode_utf8 := bytes_decode_utf8 base;
     str_lower := str_lower base |}.


(** A document whose name holds the character U+8BD5, one in Latin
    letters, and a file that is no document. *)
Definition exam_doc : str * str := (py "in", 35797 :: py ".doc").
Definition latin_doc : str * str := (py "in", py "latin.doc").
Definition notes : str * str := (py "in", py "notes.txt").

(** What [os.walk] lists when the input directory holds only the Latin
    document. *)
Definition latin_only : list (str * list str) := [(py "in", [py "latin.doc"])].

(** A server that answers a range request from byte 2 of a ten-byte
    artifact with the eight bytes left, in two chunks; and one whose stream
    breaks after the first chunk. *)
Definition good_server (url : str) (start : Z) : result response :=
  Ok {| status_error := None;
        content_range := Some (py "bytes 2-9/10");
        chunks := [[7; 7; 7; 7]; [7; 7; 7; 7]];
        stream_error := None |}.

Definition breaking_server (url : str) (start : Z) : result response :=
  Ok {| status_error := None;
        content_range := Some (py "bytes 2-9/10");
        chunks := [[7; 7; 7; 7]];
        stream_error := Some (OtherError 104) |}.

End Sample.
(* ================================================================== *)
(** * Properties of the normalisation *)

Section StringFacts.

Lemma str_eqb_eq (a b : str) : str_eqb a b = true <-> a = b.
Proof.
  revert b. induction a as [| x a IH]; intros [| y b]; cbn;
    try (split; (discriminate || reflexivity)).
  rewrite andb_true_iff, Z.eqb_eq, IH. split.
  - intros [-> ->]. reflexivity.
  - intros H. injection H as -> ->. now split.
Qed.

Lemma str_eqb_refl (a : str) : str_eqb a a = true.
Proof. now apply str_eqb_eq. Qed.

Lemma str_eqb_neq (a b : str) : a <> b -> str_eqb a b = false.
Proof.
  intros H. destruct (str_eqb a b) eqn:Hab; [| reflexivity].
  apply str_eqb_eq in Hab. contradiction.
Qed.

End StringFacts.

Section NormalisationFacts.

Lemma existsb_eqb_In (c : Z) (l : list Z) :
  existsb (Z.eqb c) l = true <-> In c l.
Proof.
  rewrite existsb_exists. split.
  - intros [x [Hx Heq]]. apply Z.eqb_eq in Heq. now subst.
  - intros H. exists c. split; [assumption | apply Z.eqb_refl].
Qed.

Lemma existsb_eqb_same (c : Z) (l1 l2 : list Z) :
  (In c l1 <-> In c l2) -> existsb (Z.eqb c) l1 = existsb (Z.eqb c) l2.
Proof.
  intros H.
  destruct (existsb (Z.eqb c) l1) eqn:E1, (existsb (Z.eqb c) l2) eqn:E2;
    try reflexivity.
  - apply existsb_eqb_In, H, existsb_eqb_In in E1. congruence.
  - apply existsb_eqb_In, H, existsb_eqb_In in E2. congruence.
Qed.

(** Substituting a character class removes the characters of the class
    and nothing else. *)
Lemma re_sub_class (cs : list Z) (s : str) :
  re_sub (One (Class cs)) s = filter (fun c => negb (existsb (Z.eqb c) cs)) s.
Proof.
  unfold re_sub. induction s as [| c s IH]; [reflexivity |].
  cbn [re_sub_aux filter]. unfold re_match. cbn [rmatch atom_ok].
  destruct (existsb (Z.eqb c) cs); cbn [negb]; now rewrite IH.
Qed.

(** A substitution by the empty string only drops characters. *)
Lemma re_sub_aux_In (r : regex) (s : str) :
  forall skip c, In c (re_sub_aux r skip s) -> In c s.
Proof.
  induction s as [| d s IH]; intros skip c H; [exact H |].
  cbn [re_sub_aux] in H. destruct skip as [| j].
  - destruct (re_match r (d :: s)) as [[| j] |].
    + destruct H as [-> | H]; [now left | right; eauto].
    + right; eauto.
    + destruct H as [-> | H]; [now left | right; eauto].
  - right; eauto.
Qed.

Lemma str_join_In (sep : str) (ls : list str) (c : Z) :
  In c (str_join sep ls) -> In c sep \/ exists l, In l ls /\ In c l.
Proof.
  induction ls as [| x rest IH]; [intros [] |].
  cbn [str_join]. destruct rest as [| y rest'].
  - intros H. right. exists x. split; [now left | assumption].
  - intros H. apply in_app_or in H. destruct H as [H | H].
    + right. exists x. split; [now left | assumption].
    + apply in_app_or in H. destruct H as [H | H]; [now left |].
      destruct (IH H) as [Hs | [l [Hl Hc]]]; [now left |].
      right. exists l. split; [now right | assumption].
Qed.

Lemma splitlines_aux_In_bounded (n : nat) :
  forall s cur l c,
    (List.length s <= n)%nat ->
    In l (splitlines_aux cur s) -> In c l -> In c cur \/ In c s.
Proof.
  induction n as [| n IH]; intros s cur l c Hn Hl Hc.
  - destruct s; [| cbn in Hn; lia].
    cbn [splitlines_aux] in Hl. destruct cur; [destruct Hl |].
    destruct Hl as [<- | []]. left. now apply in_rev.
  - destruct s as [| d s]; cbn [splitlines_aux] in Hl.
    + destruct cur; [destruct Hl |].
      destruct Hl as [<- | []]. left. now apply in_rev.
    + cbn [List.length] in Hn.
      assert (Hrec : forall t, (List.length t <= n)%nat ->
                 In l (splitlines_aux [] t) -> In c t).
      { intros t Ht Hin. destruct (IH t [] l c Ht Hin Hc) as [[] | H]. exact H. }
      assert (Hhead : rev cur = l -> In c cur \/ In c (d :: s)).
      { intros <-. left. now apply in_rev. }
      destruct (is_linebreak d).
      * destruct s as [| e s'].
        -- destruct Hl as [H | H]; [auto | destruct H].
        -- cbn [List.length] in Hn.
           destruct ((d =? 13) && (e =? 10)).
           ++ destruct Hl as [H | H]; [auto |]. right. right. right.
              apply Hrec; [lia | exact H].
           ++ destruct Hl as [H | H]; [auto |]. right. right.
              apply Hrec; [cbn [List.length]; lia | exact H].
      * destruct (IH s (d :: cur) l c ltac:(lia) Hl Hc) as [H | H].
        -- destruct H as [<- | H]; [right; now left | now left].
        -- right. now right.
Qed.

Lemma splitlines_In (s l : str) (c : Z) :
  In l (splitlines s) -> In c l -> In c s.
Proof.
  intros Hl Hc.
  destruct (@splitlines_aux_In_bounded (List.length s) s [] l c (le_n _) Hl Hc)
    as [[] | H].
  exact H.
Qed.

Lemma lstrip_In (s : str) (c : Z) : In c (lstrip s) -> In c s.
Proof.
  induction s as [| d s IH]; [intros [] |].
  cbn [lstrip]. destruct (is_space d); [right; auto | auto].
Qed.

Lemma strip_In (s : str) (c : Z) : In c (strip s) -> In c s.
Proof.
  unfold strip, rstrip. intros H.
  apply in_rev, lstrip_In, in_rev, lstrip_In in H. exact H.
Qed.

Lemma fold_pre_process_line (ls : list str) :
  forall acc,
    fold_left pre_process_line ls acc = acc ++ map clean_line (filter kept_line ls).
Proof.
  induction ls as [| l ls IH]; intros acc; cbn [fold_left filter].
  - now rewrite app_nil_r.
  - rewrite IH. unfold pre_process_line at 1, kept_line at 2.
    destruct (str_in_list _ _); cbn [negb map]; [reflexivity |].
    now rewrite <- app_assoc.
Qed.

End NormalisationFacts.

(* ================================================================== *)
(** * Claims on the normalisation *)

Lemma noise_class_is_noise_set (c : Z) :
  existsb (Z.eqb c) noise_class = existsb (Z.eqb c) noise_set.
Proof.
  apply existsb_eqb_same. unfold noise_class, noise_set. cbn. intuition.
Qed.

Lemma remove_noise_character_filter (input_string : str) :
  remove_noise_character input_string = strip_chars noise_set input_string.
Proof.
  unfold remove_noise_character, noise_pattern, strip_chars.
  rewrite re_sub_class. apply filter_ext. intros c.
  now rewrite noise_class_is_noise_set.
Qed.

(** C9, as the class is written: for every input string,
    [remove_noise_character] removes exactly the occurrences of the twelve
    characters > * | i m a g e d t p n, one character at a time and wherever
    they stand, and leaves every other character (the letter c among them)
    in place and in order. *)
Theorem remove_noise_character_strips_class (input_string : str) :
  remove_noise_character input_string =
  filter (fun c => negb (existsb (Z.eqb c) noise_set)) input_string.
Proof.
  exact (remove_noise_character_filter input_string).
Qed.

(** C9, against the set as listed: the letter c is in the list and stays
    in the string. *)
Lemma remove_noise_character_keeps_c :
  In 99 listed_noise_set /\
  remove_noise_character (py "c") = py "c" /\
  remove_noise_character (py "c") <> strip_chars listed_noise_set (py "c").
Proof.
  split; [| split].
  - vm_compute. tauto.
  - reflexivity.
  - vm_compute. discriminate.
Qed.

Lemma one_text_pre_process_map_filter (text : str) :
  one_text_pre_process text =
  str_join [10] (map clean_line (filter kept_line (splitlines text))).
Proof.
  unfold one_text_pre_process. now rewrite fold_pre_process_line.
Qed.

Lemma strip_chars_In (set : list Z) (s : str) (c : Z) :
  In c (strip_chars set s) -> In c s /\ ~ In c set.
Proof.
  unfold strip_chars. rewrite filter_In. intros [Hin Hneg]. split; [exact Hin |].
  intros Hset. apply existsb_eqb_In in Hset. rewrite Hset in Hneg. discriminate.
Qed.

Lemma one_text_pre_process_no_noise (text : str) (c : Z) :
  In c noise_set -> ~ In c (one_text_pre_process text).
Proof.
  intros Hset Hin. rewrite one_text_pre_process_map_filter in Hin.
  apply str_join_In in Hin. destruct Hin as [Hsep | [l [Hl Hc]]].
  - destruct Hsep as [<- | []]. vm_compute in Hset. intuition discriminate.
  - apply in_map_iff in Hl. destruct Hl as [line [<- _]].
    unfold clean_line in Hc. rewrite remove_noise_character_filter in Hc.
    apply strip_chars_In in Hc. tauto.
Qed.

(** C4, as the code has it: for every input text, the output is the
    lines of the text whose form after one pass of markup stripping is, once
    trimmed, neither empty nor a lone [>], each with its markup stripped (one
    pass) and its noise characters removed, in order and joined by line feeds;
    the output holds none of the noise characters, so no line of it is a lone
    [>] once trimmed. *)
Theorem one_text_pre_process_lines (text : str) :
  one_text_pre_process text =
    str_join [10] (map clean_line (filter kept_line (splitlines text))) /\
  (forall c, In c noise_set -> ~ In c (one_text_pre_process text)) /\
  (forall line, In line (splitlines (one_text_pre_process text)) ->
                strip line <> py ">").
Proof.
  split; [apply one_text_pre_process_map_filter |].
  split; [intros c; apply one_text_pre_process_no_noise |].
  intros line Hline Hstrip.
  apply (@one_text_pre_process_no_noise text 62); [vm_compute; tauto |].
  apply (@splitlines_In _ line); [exact Hline |].
  apply strip_In. rewrite Hstrip. now left.
Qed.

(** C4, as stated: the text of the two lines [a] and [[a]![x](y){b}] is
    normalised to an empty line followed by [[]{b}], which the bracket-brace
    pattern matches. *)
Lemma one_text_pre_process_not_normalized :
  one_text_pre_process Demo.two_lines = [10] ++ py "[]{b}" /\
  re_search image_pattern (one_text_pre_process Demo.two_lines) = true /\
  In [] (splitlines (one_text_pre_process Demo.two_lines)) /\
  ~ normalized (one_text_pre_process Demo.two_lines).
Proof.
  split; [reflexivity |]. split; [reflexivity |]. split; [vm_compute; tauto |].
  intros [Hpattern _]. vm_compute in Hpattern. discriminate.
Qed.

(* ================================================================== *)
(** * Claims on extraction, language and threshold *)

Section ExtractionFacts.

Variable FS : Type.
Variable E : Env FS.

(** The extension [os.path.splitext] returns starts with a dot, and no
    string that starts with a dot is a substring of [docx]. *)
Lemma dotted_not_in_docx (ext : str) : str_contains (46 :: ext) (py "docx") = false.
Proof.
  cbn. destruct ext; reflexivity.
Qed.

(** C1, on the code: for every file path, [extract_text] sends the
    extension [.docx], like [.doc], to the converter-based extractor, whose
    bytes are decoded as UTF-8; the paragraph extractor is reached only for
    an extension without its dot (a substring of [docx]). *)
Theorem extract_text_dotted_docx_uses_converter (file_local : str) :
  extract_text E file_local (py ".docx") = extract_text_from_doc E file_local /\
  extract_text E file_local (py ".doc") = extract_text_from_doc E file_local /\
  extract_text E file_local (py "docx") = extract_text_from_docx E file_local /\
  extract_text_from_doc E file_local =
    (text <- textract_process E file_local ;; bytes_decode_utf8 E text).
Proof.
  repeat split.
Qed.

(** Every extension [move_files] lets through goes to the converter. *)
Lemma extract_text_supported_suffix (file_local ext : str) :
  str_in_list ext FILE_SUFFIX = true ->
  extract_text E file_local ext = extract_text_from_doc E file_local.
Proof.
  unfold str_in_list, FILE_SUFFIX. cbn [existsb]. intros H.
  apply orb_true_iff in H. rewrite orb_false_r in H.
  destruct H as [H | H]; apply str_eqb_eq in H; subst ext; reflexivity.
Qed.

(** The paragraph extractor ends every paragraph with a space. *)
Lemma extract_text_from_docx_two (file_path p1 p2 : str) :
  docx_paragraphs E file_path = Ok [p1; p2] ->
  extract_text_from_docx E file_path = Ok (p1 ++ py " " ++ p2 ++ py " ").
Proof.
  unfold extract_text_from_docx. intros ->. cbn. now rewrite <- app_assoc.
Qed.

End ExtractionFacts.

Section ThresholdFacts.

Lemma SFcompare_Eq_sym (a b : float) :
  SFcompare a b = Some Eq -> SFcompare b a = Some Eq.
Proof.
  destruct a as [sa | sa | | sa ma ea], b as [sb | sb | | sb mb eb];
    cbn; try discriminate; try reflexivity.
  - destruct sb; discriminate.
  - destruct sb; discriminate.
  - destruct sa; discriminate.
  - destruct sa, sb; (discriminate || reflexivity).
  - destruct sa; discriminate.
  - destruct sa; discriminate.
  - destruct sb; discriminate.
  - destruct sa, sb; try discriminate.
    + destruct (Z.compare_spec ea eb) as [-> | |]; try discriminate.
      rewrite Z.compare_refl. intros H. f_equal.
      destruct (Pos.compare_cont Eq ma mb) eqn:Hm; try discriminate.
      apply Pos.compare_eq in Hm. subst.
      change (Pos.compare_cont Eq mb mb) with (Pos.compare mb mb).
      now rewrite Pos.compare_refl.
    + destruct (Z.compare_spec ea eb) as [-> | |]; try discriminate.
      rewrite Z.compare_refl. intros H. f_equal.
      destruct (Pos.compare_cont Eq ma mb) eqn:Hm; try discriminate.
      apply Pos.compare_eq in Hm. subst.
      change (Pos.compare_cont Eq mb mb) with (Pos.compare mb mb).
      now rewrite Pos.compare_refl.
Qed.

Lemma float_eq_not_gt (p t : float) : float_eq p t = true -> float_gt p t = false.
Proof.
  unfold float_eq, float_gt, SFeqb, SFltb. intros H.
  destruct (SFcompare p t) as [[| |] |] eqn:Hc; try discriminate.
  now rewrite (SFcompare_Eq_sym _ _ Hc).
Qed.

Lemma threshold_label (t p : float) :
  labelled t p (if float_gt p t then 1 else 0).
Proof.
  unfold labelled. repeat split; intros H.
  - destruct (float_gt p t); [reflexivity | discriminate].
  - now rewrite H.
  - destruct (float_gt p t); [discriminate | reflexivity].
  - now rewrite H.
  - now rewrite (float_eq_not_gt _ _ H).
Qed.

(** C7: for every probability p and threshold t,
    [get_predict_with_threshold] gives the label 1 exactly when p > t, and 0
    otherwise; a probability equal to the threshold gets the label 0.  The
    probabilities returned are the positive-class column. *)
Theorem get_predict_with_threshold_strict
    (model : classifier) (X : list str) (threshold : float)
    (probabilities : list (float * float)) :
  model X = Ok probabilities ->
  exists predictions,
    get_predict_with_threshold model X threshold =
      Ok (predictions, map snd probabilities) /\
    Forall2 (labelled threshold) (map snd probabilities) predictions.
Proof.
  intros Hmodel. unfold get_predict_with_threshold. rewrite Hmodel. cbn [bind].
  eexists. split; [reflexivity |].
  induction (map snd probabilities) as [| p ps IH]; cbn [map]; constructor.
  - apply threshold_label.
  - exact IH.
Qed.

Lemma get_predict_with_threshold_strict_witness :
  Demo.constant_model Demo.half [py "text"] = Ok [(S754_zero false, Demo.half)] /\
  exists predictions,
    get_predict_with_threshold (Demo.constant_model Demo.half)
                               [py "text"] Demo.half =
      Ok (predictions, [Demo.half]) /\
    Forall2 (labelled Demo.half) [Demo.half] predictions.
Proof.
  split; [reflexivity |].
  apply (@get_predict_with_threshold_strict
           (Demo.constant_model Demo.half) [py "text"] Demo.half
           [(S754_zero false, Demo.half)]).
  reflexivity.
Defined.

(** At the threshold itself the label is 0. *)
Lemma get_predict_at_threshold :
  get_predict_with_threshold (Demo.constant_model Demo.half) [py "text"] Demo.half
  = Ok ([0], [Demo.half]).
Proof. reflexivity. Qed.

End ThresholdFacts.

Section LanguageFacts.

Variable lower : Z -> str.

Lemma str_leb_single (x y : Z) : str_leb [x] [y] = (x <=? y).
Proof.
  cbn. destruct (Z.ltb_spec x y), (Z.eqb_spec x y), (Z.leb_spec x y);
    try reflexivity; lia.
Qed.

Lemma cjk_test (c : Z) : str_leb [0x4e00] [c] && str_leb [c] [0x9fff] = is_cjk c.
Proof.
  now rewrite !str_leb_single.
Qed.

(** The two counters of the loop are the two counts. *)
Lemma detect_language_counts (text : str) :
  forall chinese_count english_count,
    fold_left (detect_language_step lower) text (chinese_count, english_count) =
    ((chinese_count + count is_cjk text)%nat,
     (english_count +
      count (fun c => negb (is_cjk c) && lower_in_a_z lower c) text)%nat).
Proof.
  unfold count.
  induction text as [| c text IH]; intros a b; cbn [fold_left filter].
  - cbn. now rewrite !Nat.add_0_r.
  - unfold detect_language_step at 2. rewrite cjk_test.
    fold (lower_in_a_z lower c).
    destruct (is_cjk c); cbn [negb andb].
    + rewrite IH. cbn [List.length]. f_equal. lia.
    + destruct (lower_in_a_z lower c); rewrite IH; cbn [List.length];
        f_equal; lia.
Qed.

Hypothesis lower_table_a_z : forall c, lower_in_a_z lower c = counts_as_letter c.

Lemma letters_not_cjk (c : Z) :
  negb (is_cjk c) && counts_as_letter c = counts_as_letter c.
Proof.
  unfold is_cjk, counts_as_letter, is_ascii_letter.
  destruct (Z.leb_spec 0x4e00 c); cbn [andb negb]; [| reflexivity].
  destruct (Z.leb_spec c 0x9fff); cbn [andb negb]; [| reflexivity].
  replace (c <=? 90) with false by (symmetry; apply Z.leb_gt; lia).
  replace (c <=? 122) with false by (symmetry; apply Z.leb_gt; lia).
  replace (c =? 0x130) with false by (symmetry; apply Z.eqb_neq; lia).
  replace (c =? 0x212A) with false by (symmetry; apply Z.eqb_neq; lia).
  now rewrite !andb_false_r.
Qed.

(** C8, as the code counts: for every text, [detect_language] counts
    the characters in U+4E00..U+9FFF and the characters whose lowercase form
    lies between [a] and [z] (the ASCII letters of either case, and also
    U+0130 and U+212A), and returns Chinese when the first count is strictly
    the larger one, English when the second is, and Unknown when they are
    equal. *)
Theorem detect_language_majority (text : str) :
  majority (count is_cjk text) (count counts_as_letter text)
           (detect_language lower text).
Proof.
  unfold detect_language. rewrite detect_language_counts. cbn [Nat.add].
  assert (Hcount : count (fun c => negb (is_cjk c) && lower_in_a_z lower c) text
                   = count counts_as_letter text).
  { unfold count. f_equal. apply filter_ext. intros c.
    rewrite lower_table_a_z. apply letters_not_cjk. }
  rewrite Hcount.
  set (chinese := count is_cjk text). set (letters := count counts_as_letter text).
  unfold majority.
  destruct (Nat.ltb_spec letters chinese) as [H1 | H1].
  - repeat split; intros; (reflexivity || lia).
  - destruct (Nat.ltb_spec chinese letters) as [H2 | H2];
      repeat split; intros; (reflexivity || lia).
Qed.

End LanguageFacts.

(** The case table of the concrete system has the property the theorem
    asks of [str.lower]. *)
Lemma lower_table_a_z_holds (c : Z) :
  lower_in_a_z Demo.lower_table c = counts_as_letter c.
Proof.
  unfold lower_in_a_z, Demo.lower_table, counts_as_letter, is_ascii_letter.
  destruct (Z.leb_spec 65 c) as [H65 | H65]; cbn [andb orb].
  - destruct (Z.leb_spec c 90) as [H90 | H90]; cbn [andb orb].
    + change (py "a") with [97]. change (py "z") with [122].
      rewrite !str_leb_single.
      destruct (Z.leb_spec 97 (c + 32)), (Z.leb_spec (c + 32) 122);
        (reflexivity || lia).
    + destruct (Z.eqb_spec c 0x130) as [-> | H130]; [reflexivity |].
      destruct (Z.eqb_spec c 0x212A) as [-> | H212A]; [reflexivity |].
      change (py "a") with [97]. change (py "z") with [122].
      rewrite !str_leb_single. now rewrite !orb_false_r.
  - destruct (Z.eqb_spec c 0x130) as [-> | H130]; [lia |].
    destruct (Z.eqb_spec c 0x212A) as [-> | H212A]; [lia |].
    change (py "a") with [97]. change (py "z") with [122].
    rewrite !str_leb_single.
    destruct (Z.leb_spec 97 c), (Z.leb_spec c 122); cbn; (reflexivity || lia).
Qed.

Lemma detect_language_majority_witness :
  (forall c, lower_in_a_z Demo.lower_table c = counts_as_letter c) /\
  majority (count is_cjk [0x8BD5; 0x5377; 65])
           (count counts_as_letter [0x8BD5; 0x5377; 65])
           (detect_language Demo.lower_table [0x8BD5; 0x5377; 65]).
Proof.
  split; [exact lower_table_a_z_holds |].
  apply (@detect_language_majority Demo.lower_table lower_table_a_z_holds
           [0x8BD5; 0x5377; 65]).
Defined.

(** C8, as stated: the text made of the one character U+212A (KELVIN
    SIGN) has no character in the CJK range and no ASCII letter, so the two
    counts of the claim are equal, and [detect_language] answers English. *)
Lemma detect_language_kelvin_sign :
  count is_cjk [0x212A] = count is_ascii_letter [0x212A] /\
  Demo.lower_table 0x212A = py "k" /\
  detect_language Demo.lower_table [0x212A] = English.
Proof.
  repeat split.
Qed.

(* ================================================================== *)
(** * Claims on the batch driver: one file *)

Section RowFacts.

Variable FS : Type.
Variable E : Env FS.
Variables input_dir output_dir : str.
Variable threshold : float.
Variable model : classifier.
Variable just_by_file_name : bool.

Local Abbreviation target_file := (target_file_of E input_dir output_dir).
Local Abbreviation file_local := (file_local_of E).
Local Abbreviation is_supported := (supported E).
Local Abbreviation step :=
  (process_row E input_dir output_dir threshold model just_by_file_name).
Local Abbreviation loop :=
  (move_files_loop E input_dir output_dir threshold model just_by_file_name).

(** C10: a file with a is_supported extension whose mirrored target path
    exists when the file is reached is skipped before anything else: the
    world is left as it was (no extraction or classification call, no copy,
    no line in either log), and the loop goes on with the next file. *)
Theorem move_files_skips_existing_target
    (w : world FS) (pp : option (list float)) (row : str * str)
    (rest : list (str * str)) :
  is_supported row ->
  os_path_exists E (fs w) (target_file row) = true ->
  step w pp row = Next w pp /\
  loop w pp (row :: rest) = loop w pp rest.
Proof.
  unfold is_supported. intros Hext Hexists.
  assert (Hstep : step w pp row = Next w pp).
  { unfold process_row. rewrite Hext, Hexists. reflexivity. }
  split; [exact Hstep |].
  cbn [move_files_loop]. now rewrite Hstep.
Qed.

(** C3, as the code has it: an error raised by the text extraction of a
    file is caught; the file is skipped with no copy and no line in either
    log, and the loop goes on with the next file. *)
Theorem move_files_skips_failed_extraction
    (w : world FS) (pp : option (list float)) (row : str * str)
    (rest : list (str * str)) (e : exn) :
  is_supported row ->
  os_path_exists E (fs w) (target_file row) = false ->
  extract_text E (file_local row) (ext_of E row) = Raise e ->
  exists w',
    step w pp row = Next w' pp /\
    fs w' = fs w /\ name_log w' = name_log w /\ move_log w' = move_log w /\
    loop w pp (row :: rest) = loop w' pp rest.
Proof.
  unfold is_supported. intros Hext Hexists Hraise.
  exists (add_event w (CallExtract (file_local row) (ext_of E row))).
  assert (Hstep : step w pp row =
                  Next (add_event w (CallExtract (file_local row) (ext_of E row))) pp).
  { unfold process_row. rewrite Hext, Hexists, Hraise. reflexivity. }
  repeat split; [exact Hstep |].
  cbn [move_files_loop]. now rewrite Hstep.
Qed.

(** A file in another language is skipped in the same way. *)
Lemma move_files_skips_other_language
    (w : world FS) (pp : option (list float)) (row : str * str) (text : str) :
  is_supported row ->
  os_path_exists E (fs w) (target_file row) = false ->
  extract_text E (file_local row) (ext_of E row) = Ok text ->
  detect_language (str_lower E) text <> Chinese ->
  step w pp row =
  Next (add_event w (CallExtract (file_local row) (ext_of E row))) pp.
Proof.
  unfold is_supported. intros Hext Hexists Htext Hlang.
  unfold process_row. rewrite Hext, Hexists, Htext. cbn.
  destruct (detect_language (str_lower E) text); try reflexivity.
  now elim Hlang.
Qed.

(** A file with another extension is skipped at once. *)
Lemma move_files_skips_other_suffix
    (w : world FS) (pp : option (list float)) (row : str * str) :
  str_in_list (ext_of E row) FILE_SUFFIX = false ->
  step w pp row = Next w pp.
Proof.
  intros Hext. unfold process_row. now rewrite Hext.
Qed.

(** The decision by the file name: a line in the file-name log exactly
    when the match is positive, then the copy and the line of the move log. *)
Lemma heuristic_decision
    (w : world FS) (pp : option (list float)) (row : str * str) (text : str) :
  just_by_file_name || (Z.of_nat (List.length text) <? 50) = true ->
  classify_and_act E input_dir output_dir threshold model just_by_file_name
                   w pp row text =
  copy_and_log E input_dir output_dir
    (if judge_examination_paper_by_file_name (snd row)
     then write_classification_by_file_name_log w (target_file row)
     else w)
    (PBool (judge_examination_paper_by_file_name (snd row))) pp row.
Proof.
  intros Hmode. unfold classify_and_act. now rewrite Hmode.
Qed.

(** A file the heuristic rejects, once an earlier file has assigned
    [positive_probabilities]: the move log gets a line with the probability of
    that earlier file. *)
Lemma heuristic_rejection_logged
    (w : world FS) (p : float) (ps : list float) (row : str * str) (text : str) :
  just_by_file_name || (Z.of_nat (List.length text) <? 50) = true ->
  judge_examination_paper_by_file_name (snd row) = false ->
  classify_and_act E input_dir output_dir threshold model just_by_file_name
                   w (Some (p :: ps)) row text =
  Next (write_move_log w {| line_predict := PBool false; line_probability := p;
                            line_path := file_local row |})
       (Some (p :: ps)).
Proof.
  intros Hmode Hjudge. rewrite heuristic_decision by exact Hmode.
  rewrite Hjudge. reflexivity.
Qed.

(** The same file when no earlier file has assigned it: the exception
    leaves the loop. *)
Lemma heuristic_rejection_unassigned
    (w : world FS) (row : str * str) (text : str) :
  just_by_file_name || (Z.of_nat (List.length text) <? 50) = true ->
  judge_examination_paper_by_file_name (snd row) = false ->
  classify_and_act E input_dir output_dir threshold model just_by_file_name
                   w None row text =
  Abort w UnboundLocalError.
Proof.
  intros Hmode Hjudge. rewrite heuristic_decision by exact Hmode.
  rewrite Hjudge. reflexivity.
Qed.

End RowFacts.

(* ================================================================== *)
(** * Runs of the concrete system *)

(** C2, on the code: [long.doc] is classified by the model (probability
    0.25) and [short.doc], three characters long, by its file name; the
    move log gets a line for each, and the line of [short.doc] carries the
    probability of [long.doc]. *)
Theorem move_files_logs_heuristic_file :
  Demo.run Demo.two_docs (Demo.constant_model Demo.quarter) false Demo.start =
  ({| fs := [py "out"; py "in"];
      name_log := [];
      move_log :=
        [{| line_predict := PInt 0; line_probability := Demo.quarter;
            line_path := py "in/long.doc" |};
         {| line_predict := PBool false; line_probability := Demo.quarter;
            line_path := py "in/short.doc" |}];
      events :=
        [CallExtract (py "in/long.doc") (py ".doc");
         CallPredict [repeat 35797 60];
         CallExtract (py "in/short.doc") (py ".doc")] |},
   Done).
Proof. vm_compute. reflexivity. Qed.

(** In the file-name mode the first Chinese document ends the run. *)
Lemma move_files_by_file_name_raises :
  snd (Demo.run Demo.two_docs Demo.broken_model true Demo.start) =
  Raised UnboundLocalError.
Proof. vm_compute. reflexivity. Qed.

(** C3, as stated: the classifier raises on [long.doc]; nothing catches
    the exception, the run ends with it, and [short.doc] is never reached. *)
Lemma move_files_aborts_on_classifier_error :
  Demo.run Demo.two_docs Demo.broken_model false Demo.start =
  ({| fs := [py "out"; py "in"];
      name_log := [];
      move_log := [];
      events := [CallExtract (py "in/long.doc") (py ".doc");
                 CallPredict [repeat 35797 60]] |},
   Raised (OtherError 3)).
Proof. vm_compute. reflexivity. Qed.


(* ================================================================== *)
(** * Claims on the download *)

(** C6, on the code: two bytes are on disk, the artifact has ten, and the
    stream ends after three more; [download_model] asks for the bytes from
    offset 2, appends the three bytes, prints its error message, and renames
    the temporary file all the same: the model file has five bytes. *)
Theorem download_model_renames_short_download :
  Demo.partial (py "m.pkl.tmp") = Some [7; 7] /\
  dl_files Demo.short_download (py "m.pkl") = Some [7; 7; 7; 7; 7] /\
  dl_files Demo.short_download (py "m.pkl.tmp") = None /\
  dl_outcome Demo.short_download = Done /\
  dl_printed_error Demo.short_download = true.
Proof. repeat split. Qed.

Section DownloadFacts.

Variable requests_get : str -> Z -> result response.
Variable int_of_str : str -> result Z.

Lemma written_length (data : list (list Z)) :
  forall n,
    fold_left (fun n chunk => n + Z.of_nat (List.length chunk)) data n =
    n + Z.of_nat (List.length (List.concat data)).
Proof.
  induction data as [| chunk data IH]; intros n; cbn [fold_left List.concat].
  - cbn. lia.
  - rewrite IH, length_app. lia.
Qed.

Lemma temp_name_differs (model_name : str) : model_name <> model_name ++ py ".tmp".
Proof.
  intros H. apply (f_equal (@List.length Z)) in H.
  rewrite length_app in H. cbn in H. lia.
Qed.

(** When the server answers the range request with all the remaining
    bytes, the temporary file is completed and renamed, and the model file
    has the full size. *)
Lemma download_model_complete
    (model_name download_url header size : str) (f : files) (old : list Z)
    (r : response) (total_size : Z) :
  f model_name = None ->
  f (model_name ++ py ".tmp") = Some old ->
  requests_get download_url (Z.of_nat (List.length old)) = Ok r ->
  status_error r = None ->
  content_range r = Some header ->
  nth_error (str_split 47 header) 1 = Some size ->
  int_of_str size = Ok total_size ->
  stream_error r = None ->
  Z.of_nat (List.length (List.concat (chunks r))) =
    total_size - Z.of_nat (List.length old) ->
  exists data,
    dl_files (download_model requests_get int_of_str model_name download_url f)
             model_name = Some data /\
    data = old ++ List.concat (chunks r) /\
    Z.of_nat (List.length data) = total_size /\
    dl_files (download_model requests_get int_of_str model_name download_url f)
             (model_name ++ py ".tmp") = None /\
    dl_outcome (download_model requests_get int_of_str model_name download_url f)
      = Done /\
    dl_printed_error
      (download_model requests_get int_of_str model_name download_url f) = false.
Proof.
  intros Hmodel Htemp Hget Hstatus Hheader Hsize Hint Hstream Hlen.
  exists (old ++ List.concat (chunks r)).
  unfold download_model.
  rewrite Hmodel, Htemp, Hget, Hstatus, Hheader, Hsize, Hint, Hstream.
  cbn [dl_files dl_outcome dl_printed_error].
  unfold file_write, file_remove.
  rewrite str_eqb_refl.
  rewrite (str_eqb_neq (not_eq_sym (@temp_name_differs model_name))).
  rewrite str_eqb_refl.
  repeat split.
  - rewrite length_app. lia.
  - rewrite written_length.
    replace (Z.of_nat (List.length old) +
             Z.of_nat (List.length (List.concat (chunks r)))) with total_size by lia.
    rewrite Z.eqb_refl. cbn. apply andb_false_r.
Qed.

End DownloadFacts.

(* ================================================================== *)
(** * Claims on the batch driver: two runs *)

Section RunFacts.

Variable FS : Type.
Variable E : Env FS.
Variables input_dir output_dir : str.
Variable threshold : float.
Variable model : classifier.
Variable just_by_file_name : bool.

Local Abbreviation target_file := (target_file_of E input_dir output_dir).
Local Abbreviation file_local := (file_local_of E).
Local Abbreviation is_supported := (supported E).
Local Abbreviation exists_in := (fun w p => os_path_exists E (fs w) p).
Local Abbreviation step :=
  (process_row E input_dir output_dir threshold model just_by_file_name).
Local Abbreviation loop :=
  (move_files_loop E input_dir output_dir threshold model just_by_file_name).
Local Abbreviation act :=
  (classify_and_act E input_dir output_dir threshold model just_by_file_name).
Local Abbreviation accepted := (accepts E threshold model just_by_file_name).
Local Abbreviation accepted_text := (accepts_text threshold model just_by_file_name).
Local Abbreviation line_of := (model_line E threshold model just_by_file_name).
Local Abbreviation line_of_text :=
  (model_line_text E threshold model just_by_file_name).

Local Abbreviation keeps_paths := (keeps E).

Lemma keeps_refl (w : world FS) : keeps_paths w w.
Proof. intros p H. exact H. Qed.


(** ** The turn of the loop that rejects *)

Lemma copy_if_predicted_rejected (w : world FS) (predict : pyval) (row : str * str) :
  truthy predict = false ->
  copy_if_predicted E input_dir output_dir w predict row = (w, None).
Proof.
  intros H. unfold copy_if_predicted. now rewrite H.
Qed.

Lemma log_move_world
    (w : world FS) (predict : pyval) (pp : option (list float)) (row : str * str) :
  fs (world_of (log_move E w predict pp row)) = fs w /\
  name_log (world_of (log_move E w predict pp row)) = name_log w /\
  exists extra,
    move_log (world_of (log_move E w predict pp row)) = move_log w ++ extra /\
    forall l, In l extra -> line_predict l = predict /\ line_path l = file_local row.
Proof.
  unfold log_move. destruct pp as [[| p ps] |]; cbn.
  - repeat split. exists []. rewrite app_nil_r. split; [reflexivity | intros l []].
  - repeat split. eexists. split; [reflexivity |].
    intros l [<- | []]. split; reflexivity.
  - repeat split. exists []. rewrite app_nil_r. split; [reflexivity | intros l []].
Qed.

Lemma act_rejected
    (w : world FS) (pp : option (list float)) (row : str * str) (text : str) :
  accepted_text row text = false ->
  fs (world_of (act w pp row text)) = fs w /\
  name_log (world_of (act w pp row text)) = name_log w /\
  exists extra,
    move_log (world_of (act w pp row text)) = move_log w ++ extra /\
    forall l, In l extra ->
              truthy (line_predict l) = false /\ line_path l = file_local row.
Proof.
  unfold accepts_text, classify_and_act, by_file_name.
  destruct (just_by_file_name || (Z.of_nat (List.length text) <? 50)).
  - intros Hjudge. rewrite Hjudge. unfold copy_and_log.
    rewrite copy_if_predicted_rejected by reflexivity.
    destruct (log_move_world w (PBool false) pp row) as [Hfs [Hname [extra [Hlog Hextra]]]].
    repeat split; try assumption.
    exists extra. split; [assumption |].
    intros l Hl. destruct (Hextra l Hl) as [-> ->]. split; reflexivity.
  - destruct (get_predict_with_threshold model [one_text_pre_process text] threshold)
      as [[[| predict predictions] pps] | e]; intros Hreject.
    + cbn. repeat split. exists []. now rewrite app_nil_r.
    + unfold copy_and_log. rewrite copy_if_predicted_rejected by exact Hreject.
      destruct (log_move_world (add_event w (CallPredict [one_text_pre_process text]))
                               (PInt predict) (Some pps) row)
        as [Hfs [Hname [extra [Hlog Hextra]]]].
      repeat split; try assumption.
      exists extra. split; [assumption |].
      intros l Hl. destruct (Hextra l Hl) as [-> ->]. split; [exact Hreject | reflexivity].
    + cbn. repeat split. exists []. now rewrite app_nil_r.
Qed.

(** A file that has a copy already, or that the driver rejects: its turn
    changes neither the file system nor the file-name log, and what it
    appends to the move log is a line of rejection for this file. *)
Lemma step_without_copy
    (w : world FS) (pp : option (list float)) (row : str * str) :
  (is_supported row -> exists_in w (target_file row) = true \/ accepted row = false) ->
  fs (world_of (step w pp row)) = fs w /\
  name_log (world_of (step w pp row)) = name_log w /\
  exists extra,
    move_log (world_of (step w pp row)) = move_log w ++ extra /\
    forall l, In l extra ->
              truthy (line_predict l) = false /\ line_path l = file_local row /\
              is_supported row /\ exists_in w (target_file row) = false.
Proof.
  intros Hpre. unfold process_row, supported in *.
  destruct (str_in_list (ext_of E row) FILE_SUFFIX) eqn:Hext; cbn [negb].
  2:{ cbn. repeat split. exists []. rewrite app_nil_r. split; [reflexivity | intros l []]. }
  destruct (os_path_exists E (fs w) (target_file row)) eqn:Hexists.
  { cbn. repeat split. exists []. rewrite app_nil_r. split; [reflexivity | intros l []]. }
  destruct (Hpre eq_refl) as [Habs | Hreject]; [discriminate |].
  unfold accepts, chinese_text in Hreject.
  destruct (extract_text E (file_local row) (ext_of E row)) as [text | e].
  2:{ cbn. repeat split. exists []. rewrite app_nil_r. split; [reflexivity | intros l []]. }
  destruct (negb (language_eqb (detect_language (str_lower E) text) Chinese)).
  { cbn. repeat split. exists []. rewrite app_nil_r. split; [reflexivity | intros l []]. }
  destruct (@act_rejected (add_event w (CallExtract (file_local row) (ext_of E row)))
                          pp row text Hreject)
    as [Hfs [Hname [extra [Hlog Hextra]]]].
  repeat split; try assumption.
  exists extra. split; [assumption |].
  intros l Hl. destruct (Hextra l Hl) as [H1 H2]. repeat split; assumption.
Qed.

(** ** The turn of the loop that goes on *)

Hypothesis laws : FSLaws E.

Lemma copy_if_predicted_done
    (w : world FS) (predict : pyval) (row : str * str) (w1 : world FS) :
  copy_if_predicted E input_dir output_dir w predict row = (w1, None) ->
  keeps_paths w w1 /\ name_log w1 = name_log w /\ move_log w1 = move_log w /\
  (truthy predict = true -> exists_in w1 (target_file row) = true).
Proof.
  unfold copy_if_predicted. destruct (truthy predict).
  - destruct (path_mkdir E (fs w) (target_dir_of E input_dir output_dir row))
      as [fs1 | e] eqn:Hmkdir; [| discriminate].
    destruct (shutil_copy E fs1 (file_local row) (target_file row))
      as [fs2 | e] eqn:Hcopy; [| discriminate].
    intros H. injection H as <-. cbn. repeat split.
    + intros p Hp. cbn.
      eapply (copy_keeps laws); [exact Hcopy |].
      eapply (mkdir_keeps laws); [exact Hmkdir | exact Hp].
    + intros _. eapply (copy_creates laws). exact Hcopy.
  - intros H. injection H as <-. repeat split; [apply keeps_refl | discriminate].
Qed.

Lemma copy_and_log_next
    (w : world FS) (predict : pyval) (pp : option (list float)) (row : str * str)
    (w' : world FS) (pp' : option (list float)) :
  copy_and_log E input_dir output_dir w predict pp row = Next w' pp' ->
  keeps_paths w w' /\
  (truthy predict = true -> exists_in w' (target_file row) = true) /\
  exists p ps,
    pp = Some (p :: ps) /\
    move_log w' = move_log w ++ [{| line_predict := predict; line_probability := p;
                                    line_path := file_local row |}].
Proof.
  unfold copy_and_log.
  destruct (copy_if_predicted E input_dir output_dir w predict row)
    as [w1 [e |]] eqn:Hcopy; [discriminate |].
  destruct (copy_if_predicted_done _ _ _ Hcopy) as [Hkeeps [_ [Hlog Htarget]]].
  unfold log_move. destruct pp as [[| p ps] |]; try discriminate.
  intros H. injection H as <- <-. cbn. repeat split.
  - exact Hkeeps.
  - exact Htarget.
  - exists p, ps. now rewrite Hlog.
Qed.

Lemma act_next
    (w : world FS) (pp : option (list float)) (row : str * str) (text : str)
    (w' : world FS) (pp' : option (list float)) :
  act w pp row text = Next w' pp' ->
  keeps_paths w w' /\
  (accepted_text row text = true -> exists_in w' (target_file row) = true) /\
  exists extra,
    move_log w' = move_log w ++ extra /\
    forall l, line_of_text row text = Some l -> In l extra.
Proof.
  unfold accepts_text, model_line_text, classify_and_act,
    by_file_name.
  destruct (just_by_file_name || (Z.of_nat (List.length text) <? 50)).
  - intros H. apply copy_and_log_next in H.
    destruct H as [Hkeeps [Htarget [p [ps [_ Hlog]]]]].
    destruct (judge_examination_paper_by_file_name (snd row));
      (repeat split;
       [ exact Hkeeps
       | exact Htarget
       | eexists; split; [exact Hlog | intros l Hl; discriminate] ]).
  - destruct (get_predict_with_threshold model [one_text_pre_process text] threshold)
      as [[[| predict predictions] pps] | e]; try discriminate.
    intros H. apply copy_and_log_next in H.
    destruct H as [Hkeeps [Htarget [p [ps [Hpps Hlog]]]]].
    injection Hpps as ->.
    repeat split.
    + exact Hkeeps.
    + exact Htarget.
    + eexists. split; [exact Hlog |].
      intros l Hl. injection Hl as <-. now left.
Qed.

Lemma step_next
    (w : world FS) (pp : option (list float)) (row : str * str)
    (w' : world FS) (pp' : option (list float)) :
  step w pp row = Next w' pp' ->
  keeps_paths w w' /\
  (is_supported row -> accepted row = true -> exists_in w' (target_file row) = true) /\
  exists extra,
    move_log w' = move_log w ++ extra /\
    (is_supported row -> exists_in w (target_file row) = false ->
     forall l, line_of row = Some l -> In l extra).
Proof.
  unfold process_row, supported, accepts, model_line,
    chinese_text.
  destruct (str_in_list (ext_of E row) FILE_SUFFIX) eqn:Hext; cbn [negb].
  2:{ intros H. injection H as <- <-. repeat split; [apply keeps_refl | discriminate |].
      exists []. rewrite app_nil_r. split; [reflexivity | discriminate]. }
  destruct (os_path_exists E (fs w) (target_file row)) eqn:Hexists.
  { intros H. injection H as <- <-. repeat split; [apply keeps_refl | auto |].
    exists []. rewrite app_nil_r. split; [reflexivity | discriminate]. }
  destruct (extract_text E (file_local row) (ext_of E row)) as [text | e].
  2:{ intros H. injection H as <- <-.
      repeat split; [intros p Hp; exact Hp | discriminate |].
      exists []. rewrite app_nil_r. split; [reflexivity | discriminate]. }
  destruct (negb (language_eqb (detect_language (str_lower E) text) Chinese)).
  { intros H. injection H as <- <-.
    repeat split; [intros p Hp; exact Hp | discriminate |].
    exists []. rewrite app_nil_r. split; [reflexivity | discriminate]. }
  intros H. apply act_next in H. destruct H as [Hkeeps [Htarget [extra [Hlog Hline]]]].
  repeat split.
  - exact Hkeeps.
  - intros _. exact Htarget.
  - exists extra. split; [exact Hlog |]. intros _ _. exact Hline.
Qed.

(** ** Whole runs of the loop *)



(** ** Whatever the outcome *)











Local Abbreviation run :=
  (move_files E input_dir output_dir threshold model just_by_file_name).



End RunFacts.

(* ================================================================== *)
(** * The concrete system meets the assumptions *)

Lemma add_path_has (f : Demo.paths) (p : str) : str_in_list p (Demo.add_path f p) = true.
Proof.
  unfold Demo.add_path. destruct (str_in_list p f) eqn:H; [exact H |].
  unfold str_in_list. cbn [existsb]. now rewrite str_eqb_refl.
Qed.

Lemma add_path_keeps (f : Demo.paths) (d p : str) :
  str_in_list p f = true -> str_in_list p (Demo.add_path f d) = true.
Proof.
  intros H. unfold Demo.add_path. destruct (str_in_list d f); [exact H |].
  unfold str_in_list in *. cbn [existsb]. rewrite H. apply orb_true_r.
Qed.

Lemma demo_laws (walk : list (str * list str)) : FSLaws (Demo.env walk None).
Proof.
  constructor; cbn.
  - intros f src dst f' H. injection H as <-. apply add_path_has.
  - intros f src dst f' p H Hp. injection H as <-. now apply add_path_keeps.
  - intros f d f' p H Hp. injection H as <-. now apply add_path_keeps.
  - intros f d f' H. injection H as <-. apply add_path_has.
  - intros f d f' H Hd. injection H as <-. unfold Demo.add_path. now rewrite Hd.
Qed.

Lemma move_files_skips_existing_target_witness :
  supported (Demo.env Demo.one_doc None) Demo.long_doc /\
  os_path_exists (Demo.env Demo.one_doc None) (fs Demo.after_first_run)
    (target_file_of (Demo.env Demo.one_doc None) Demo.in_dir Demo.out_dir
                    Demo.long_doc) = true /\
  process_row (Demo.env Demo.one_doc None) Demo.in_dir Demo.out_dir Demo.half
              Demo.broken_model false Demo.after_first_run None Demo.long_doc
    = Next Demo.after_first_run None /\
  move_files_loop (Demo.env Demo.one_doc None) Demo.in_dir Demo.out_dir Demo.half
                  Demo.broken_model false Demo.after_first_run None
                  [Demo.long_doc; Demo.broken_doc]
    = move_files_loop (Demo.env Demo.one_doc None) Demo.in_dir Demo.out_dir
                      Demo.half Demo.broken_model false Demo.after_first_run None
                      [Demo.broken_doc].
Proof.
  split; [reflexivity |]. split; [reflexivity |].
  apply (@move_files_skips_existing_target
           Demo.paths (Demo.env Demo.one_doc None) Demo.in_dir Demo.out_dir
           Demo.half Demo.broken_model false Demo.after_first_run None
           Demo.long_doc [Demo.broken_doc]);
    reflexivity.
Defined.

Lemma move_files_skips_failed_extraction_witness :
  supported (Demo.env Demo.one_doc None) Demo.broken_doc /\
  os_path_exists (Demo.env Demo.one_doc None) (fs Demo.start)
    (target_file_of (Demo.env Demo.one_doc None) Demo.in_dir Demo.out_dir
                    Demo.broken_doc) = false /\
  extract_text (Demo.env Demo.one_doc None)
               (file_local_of (Demo.env Demo.one_doc None) Demo.broken_doc)
               (ext_of (Demo.env Demo.one_doc None) Demo.broken_doc)
    = Raise (OtherError 1) /\
  exists w',
    process_row (Demo.env Demo.one_doc None) Demo.in_dir Demo.out_dir Demo.half
                Demo.broken_model false Demo.start None Demo.broken_doc
      = Next w' None /\
    fs w' = fs Demo.start /\ name_log w' = name_log Demo.start /\
    move_log w' = move_log Demo.start /\
    move_files_loop (Demo.env Demo.one_doc None) Demo.in_dir Demo.out_dir Demo.half
                    Demo.broken_model false Demo.start None
                    [Demo.broken_doc; Demo.long_doc]
      = move_files_loop (Demo.env Demo.one_doc None) Demo.in_dir Demo.out_dir
                        Demo.half Demo.broken_model false w' None [Demo.long_doc].
Proof.
  split; [reflexivity |]. split; [reflexivity |]. split; [reflexivity |].
  apply (@move_files_skips_failed_extraction
           Demo.paths (Demo.env Demo.one_doc None) Demo.in_dir Demo.out_dir
           Demo.half Demo.broken_model false Demo.start None
           Demo.broken_doc [Demo.long_doc] (OtherError 1));
    reflexivity.
Defined.




(** A first run that copies a document and ends with an exception, and
    the second run: the copy is not made again and no line is written for
    the copied document. *)
Lemma second_run_after_exception :
  fs (fst (Demo.exam_run Demo.after_exam_run)) = fs Demo.after_exam_run /\
  name_log (fst (Demo.exam_run Demo.after_exam_run)) = name_log Demo.after_exam_run /\
  move_log (fst (Demo.exam_run Demo.after_exam_run)) = move_log Demo.after_exam_run /\
  events (fst (Demo.exam_run Demo.after_exam_run)) =
    events Demo.after_exam_run ++ [CallExtract (py "in/long.doc") (py ".doc")].
Proof. repeat split. Qed.

(** The second run over the two rejected documents writes the line of
    [long.doc] a second time. *)
Lemma second_run_repeats_rejection :
  move_log (fst (Demo.run Demo.two_docs (Demo.constant_model Demo.quarter) false
                          Demo.after_rejections))
  = move_log Demo.after_rejections ++ move_log Demo.after_rejections.
Proof. vm_compute. reflexivity. Qed.

(* ================================================================== *)
(** * More on the matcher *)

Section MatcherFacts.

Lemma rmatch_lits (l : list Z) :
  forall (K : nat -> str -> option nat) (n : nat) (s : str),
    rmatch (lits l) K n s =
    if startswith l s then K (n + List.length l)%nat (skipn (List.length l) s)
    else None.
Proof.
  induction l as [| x l IH]; intros K n s.
  - cbn. now rewrite Nat.add_0_r.
  - change (lits (x :: l)) with (Cat (One (Lit x)) (lits l)).
    cbn [rmatch atom_ok]. destruct s as [| c s]; [reflexivity |].
    cbn [startswith List.length skipn]. rewrite (Z.eqb_sym x c).
    destruct (c =? x); cbn [andb]; [| reflexivity].
    rewrite IH. now rewrite Nat.add_succ_r.
Qed.

Lemma rmatch_seq_cons (r : regex) (rs : list regex) K n s :
  rmatch (seq (r :: rs)) K n s = rmatch r (rmatch (seq rs) K) n s.
Proof. reflexivity. Qed.

Lemma startswith_app (l s : str) : startswith l (l ++ s) = true.
Proof.
  induction l as [| x l IH]; [reflexivity |].
  cbn. now rewrite Z.eqb_refl, IH.
Qed.

Lemma skipn_app_exact (l s : str) : skipn (List.length l) (l ++ s) = s.
Proof. induction l; [reflexivity | assumption]. Qed.

Lemma rmatch_lits_app (l : list Z) K n s :
  rmatch (lits l) K n (l ++ s) = K (n + List.length l)%nat s.
Proof.
  now rewrite rmatch_lits, startswith_app, skipn_app_exact.
Qed.

Lemma lazy_star_skip (a : atom) (K : nat -> str -> option nat) (x : str) :
  forall (n : nat) (t : str),
    (forall c, In c x -> atom_ok a c = true) ->
    (forall m c u, In c x -> K m (c :: u) = None) ->
    lazy_star a K n (x ++ t) = lazy_star a K (n + List.length x)%nat t.
Proof.
  induction x as [| c x IH]; intros n t Hok Hfail.
  - cbn. now rewrite Nat.add_0_r.
  - cbn [app lazy_star List.length].
    rewrite (Hfail n c (x ++ t) (or_introl eq_refl)).
    rewrite (Hok c (or_introl eq_refl)).
    rewrite IH.
    + now rewrite Nat.add_succ_r.
    + intros d Hd. apply Hok. now right.
    + intros m d u Hd. apply Hfail. now right.
Qed.

Lemma lazy_star_none (a : atom) (K : nat -> str -> option nat) (P : str -> Prop) :
  (forall c u, P (c :: u) -> P u) ->
  (forall m u, P u -> K m u = None) ->
  forall (s : str) (n : nat), P s -> lazy_star a K n s = None.
Proof.
  intros Hsuffix Hfail. induction s as [| c s IH]; intros n Hs.
  - cbn. now rewrite Hfail.
  - cbn [lazy_star]. rewrite (Hfail _ _ Hs).
    destruct (atom_ok a c); [| reflexivity].
    apply IH. eapply Hsuffix. exact Hs.
Qed.

Lemma lazy_star_now (a : atom) (K : nat -> str -> option nat) n s m :
  K n s = Some m -> lazy_star a K n s = Some m.
Proof. intros H. destruct s; cbn; now rewrite H. Qed.

End MatcherFacts.

(* ================================================================== *)
(** * More on the markup substitution *)

Section ImageFacts.

Lemma image_pattern_start (s : str) :
  startswith [33; 91] s = false -> startswith [91] s = false ->
  re_match image_pattern s = None.
Proof.
  intros H1 H3. unfold re_match, image_pattern. cbn [rmatch].
  unfold image_with_size, image_plain, bracket_brace.
  rewrite !rmatch_seq_cons.
  change (word "![") with (lits [33; 91]). change (word "[") with (lits [91]).
  rewrite !rmatch_lits. now rewrite H1, H3.
Qed.

Lemma image_pattern_no_bracket (c : Z) (s : str) :
  c <> 91 -> (forall d s', s = d :: s' -> d <> 91) ->
  re_match image_pattern (c :: s) = None.
Proof.
  intros Hc Hs. apply image_pattern_start.
  - cbn [startswith]. destruct (Z.eqb_spec 33 c); [| reflexivity]. cbn [andb].
    destruct s as [| d s']; [reflexivity |].
    destruct (Z.eqb_spec 91 d) as [Heq |]; [| reflexivity].
    exfalso. apply (Hs d s' eq_refl). congruence.
  - cbn [startswith]. destruct (Z.eqb_spec 91 c); [congruence | reflexivity].
Qed.

Lemma startswith_second (a b : Z) (l u : str) :
  startswith (a :: b :: l) u = true -> In b u.
Proof.
  destruct u as [| x [| y u]]; cbn [startswith]; try discriminate.
  - rewrite andb_false_r. discriminate.
  - intros H. apply andb_true_iff in H. destruct H as [_ H].
    apply andb_true_iff in H. destruct H as [H _]. apply Z.eqb_eq in H.
    right. left. congruence.
Qed.

Lemma skipn_not_In (c : Z) (n : nat) (u : str) : ~ In c u -> ~ In c (skipn n u).
Proof.
  revert u. induction n as [| n IH]; intros u H; [exact H |].
  destruct u as [| x u]; [exact H |]. cbn. apply IH. intros Hin. apply H. now right.
Qed.

(** Without an opening brace, the alternative with size attributes
    cannot match. *)
Lemma image_with_size_needs_brace (rest : str) (n : nat) :
  ~ In 123 rest ->
  rmatch image_with_size match_end n (33 :: 91 :: rest) = None.
Proof.
  intros Hrest. unfold image_with_size. rewrite rmatch_seq_cons.
  change (word "![") with (lits [33; 91]).
  change (33 :: 91 :: rest) with ([33; 91] ++ rest). rewrite rmatch_lits_app.
  rewrite rmatch_seq_cons. cbn [rmatch].
  apply (@lazy_star_none Dot _ (fun u => ~ In 123 u)); [| | exact Hrest].
  - intros c u H Hin. apply H. now right.
  - intros m u Hu. rewrite rmatch_seq_cons.
    change (word "](") with (lits [93; 40]). rewrite rmatch_lits.
    destruct (startswith [93; 40] u); [| reflexivity].
    rewrite rmatch_seq_cons. cbn [rmatch].
    apply (@lazy_star_none Dot _ (fun u => ~ In 123 u)).
    + intros c v H Hin. apply H. now right.
    + intros m' v Hv. rewrite rmatch_seq_cons.
      change (word "){width=") with (lits (py "){width=")). rewrite rmatch_lits.
      destruct (startswith (py "){width=") v) eqn:Hstart; [| reflexivity].
      exfalso. apply Hv. exact (startswith_second _ _ _ _ Hstart).
    + now apply skipn_not_In.
Qed.

Lemma dot_ok (x : str) : ~ In 10 x -> forall c, In c x -> atom_ok Dot c = true.
Proof.
  intros H c Hc. cbn [atom_ok]. destruct (Z.eqb_spec c 10); [subst; contradiction | reflexivity].
Qed.

Lemma lits_fail_on (l : list Z) (d : Z) (x : str) (K : nat -> str -> option nat) :
  ~ In d x ->
  forall m c u, In c x -> rmatch (lits (d :: l)) K m (c :: u) = None.
Proof.
  intros H m c u Hc. rewrite rmatch_lits. cbn [startswith].
  destruct (Z.eqb_spec d c); [subst; contradiction | reflexivity].
Qed.

Lemma plain_image_app (alt url post : str) :
  plain_image alt url ++ post = [33; 91] ++ alt ++ [93; 40] ++ url ++ [41] ++ post.
Proof.
  unfold plain_image. now rewrite <- !app_assoc.
Qed.

Lemma plain_image_length (alt url : str) :
  List.length (plain_image alt url) = (List.length alt + List.length url + 5)%nat.
Proof.
  unfold plain_image. rewrite !length_app. cbn. lia.
Qed.

Lemma image_plain_matches (alt url post : str) (n : nat) :
  ~ In 10 alt -> ~ In 93 alt -> ~ In 10 url -> ~ In 41 url ->
  rmatch image_plain match_end n (plain_image alt url ++ post) =
  Some (n + List.length (plain_image alt url))%nat.
Proof.
  intros Ha1 Ha2 Hu1 Hu2. rewrite plain_image_app, plain_image_length.
  unfold image_plain. rewrite rmatch_seq_cons.
  change (word "![") with (lits [33; 91]). rewrite rmatch_lits_app.
  rewrite rmatch_seq_cons. cbn [rmatch].
  rewrite lazy_star_skip; [| now apply dot_ok | ].
  2:{ intros m c u Hc. rewrite rmatch_seq_cons.
      change (word "](") with (lits [93; 40]). now apply lits_fail_on with (x := alt). }
  apply lazy_star_now. rewrite rmatch_seq_cons.
  change (word "](") with (lits [93; 40]). rewrite rmatch_lits_app.
  rewrite rmatch_seq_cons. cbn [rmatch].
  rewrite lazy_star_skip; [| now apply dot_ok | ].
  2:{ intros m c u Hc. rewrite rmatch_seq_cons.
      change (word ")") with (lits [41]). now apply lits_fail_on with (x := url). }
  apply lazy_star_now. rewrite rmatch_seq_cons.
  change (word ")") with (lits [41]). rewrite rmatch_lits_app.
  cbn. unfold match_end. f_equal. lia.
Qed.

Lemma re_match_plain_image (alt url post : str) :
  ~ In 10 alt -> ~ In 93 alt -> ~ In 123 alt ->
  ~ In 10 url -> ~ In 41 url -> ~ In 123 url -> ~ In 123 post ->
  re_match image_pattern (plain_image alt url ++ post) =
  Some (List.length (plain_image alt url)).
Proof.
  intros Ha1 Ha2 Ha3 Hu1 Hu2 Hu3 Hp.
  unfold re_match, image_pattern. cbn [rmatch]. fold match_end.
  replace (rmatch image_with_size match_end 0 (plain_image alt url ++ post)) with (@None nat).
  - now rewrite image_plain_matches.
  - symmetry. rewrite plain_image_app. apply image_with_size_needs_brace.
    intros H. repeat (apply in_app_or in H; destruct H as [H | H]);
      try contradiction; cbn in H; intuition discriminate.
Qed.

End ImageFacts.

Section ImageFacts2.

Lemma rmatch_quote_fail (x : str) (K : nat -> str -> option nat) :
  ~ In 34 x -> forall m c u, In c x -> rmatch quote K m (c :: u) = None.
Proof.
  intros H m c u Hc. cbn [rmatch quote atom_ok].
  destruct (Z.eqb_spec c 34); [subst; contradiction | reflexivity].
Qed.

Lemma rmatch_quote (K : nat -> str -> option nat) (n : nat) (s : str) :
  rmatch quote K n ([34] ++ s) = K (S n) s.
Proof. reflexivity. Qed.

Lemma sized_image_app (alt url width height post : str) :
  sized_image alt url width height ++ post =
  [33; 91] ++ alt ++ [93; 40] ++ url ++ py "){width=" ++ [34] ++ width ++ [34]
    ++ py " height=" ++ [34] ++ height ++ [34] ++ [125] ++ post.
Proof.
  unfold sized_image. now rewrite <- !app_assoc.
Qed.

Lemma sized_image_length (alt url width height : str) :
  List.length (sized_image alt url width height) =
  (List.length alt + List.length url + List.length width + List.length height + 25)%nat.
Proof.
  unfold sized_image. rewrite !length_app. cbn. lia.
Qed.

Lemma re_match_sized_image (alt url width height post : str) :
  ~ In 10 alt -> ~ In 93 alt -> ~ In 10 url -> ~ In 41 url ->
  ~ In 10 width -> ~ In 34 width -> ~ In 10 height -> ~ In 34 height ->
  re_match image_pattern (sized_image alt url width height ++ post) =
  Some (List.length (sized_image alt url width height)).
Proof.
  intros Ha1 Ha2 Hu1 Hu2 Hw1 Hw2 Hh1 Hh2.
  unfold re_match, image_pattern. cbn [rmatch]. fold match_end.
  assert (H : rmatch image_with_size match_end 0 (sized_image alt url width height ++ post)
              = Some (List.length (sized_image alt url width height))).
  { rewrite sized_image_app, sized_image_length.
    unfold image_with_size. rewrite rmatch_seq_cons.
    change (word "![") with (lits [33; 91]). rewrite rmatch_lits_app.
    rewrite rmatch_seq_cons. cbn [rmatch].
    rewrite lazy_star_skip; [| now apply dot_ok | ].
    2:{ intros m c u Hc. rewrite rmatch_seq_cons.
        change (word "](") with (lits [93; 40]). now apply lits_fail_on with (x := alt). }
    apply lazy_star_now. rewrite rmatch_seq_cons.
    change (word "](") with (lits [93; 40]). rewrite rmatch_lits_app.
    rewrite rmatch_seq_cons. cbn [rmatch].
    rewrite lazy_star_skip; [| now apply dot_ok | ].
    2:{ intros m c u Hc. rewrite rmatch_seq_cons.
        change (word "){width=") with (lits (41 :: py "{width=")).
        now apply lits_fail_on with (x := url). }
    apply lazy_star_now. rewrite rmatch_seq_cons.
    change (word "){width=") with (lits (py "){width=")). rewrite rmatch_lits_app.
    rewrite rmatch_seq_cons, rmatch_quote.
    rewrite rmatch_seq_cons. cbn [rmatch].
    rewrite lazy_star_skip; [| now apply dot_ok | ].
    2:{ intros m c u Hc. rewrite rmatch_seq_cons.
        now apply rmatch_quote_fail with (x := width). }
    apply lazy_star_now. rewrite rmatch_seq_cons, rmatch_quote.
    rewrite rmatch_seq_cons.
    change (word " height=") with (lits (py " height=")). rewrite rmatch_lits_app.
    rewrite rmatch_seq_cons, rmatch_quote.
    rewrite rmatch_seq_cons. cbn [rmatch].
    rewrite lazy_star_skip; [| now apply dot_ok | ].
    2:{ intros m c u Hc. rewrite rmatch_seq_cons.
        now apply rmatch_quote_fail with (x := height). }
    apply lazy_star_now. rewrite rmatch_seq_cons, rmatch_quote.
    rewrite rmatch_seq_cons.
    change (word "}") with (lits [125]). rewrite rmatch_lits_app.
    cbn. unfold match_end. f_equal. lia. }
  now rewrite H.
Qed.

Lemma bracket_span_app (text attributes post : str) :
  bracket_span text attributes ++ post =
  [91] ++ text ++ [93; 123] ++ attributes ++ [125] ++ post.
Proof.
  unfold bracket_span. now rewrite <- !app_assoc.
Qed.

Lemma bracket_span_length (text attributes : str) :
  List.length (bracket_span text attributes) =
  (List.length text + List.length attributes + 4)%nat.
Proof.
  unfold bracket_span. rewrite !length_app. cbn. lia.
Qed.

Lemma re_match_bracket_span (text attributes post : str) :
  ~ In 10 text -> ~ In 93 text -> ~ In 10 attributes -> ~ In 125 attributes ->
  re_match image_pattern (bracket_span text attributes ++ post) =
  Some (List.length (bracket_span text attributes)).
Proof.
  intros Ht1 Ht2 Ha1 Ha2.
  unfold re_match, image_pattern. cbn [rmatch]. fold match_end.
  rewrite bracket_span_app, bracket_span_length.
  unfold image_with_size at 1. rewrite rmatch_seq_cons.
  change (word "![") with (lits [33; 91]). rewrite rmatch_lits.
  change (startswith [33; 91] ([91] ++ text ++ [93; 123] ++ attributes ++ [125] ++ post))
    with false. cbv iota.
  unfold image_plain at 1. rewrite rmatch_seq_cons.
  change (word "![") with (lits [33; 91]). rewrite rmatch_lits.
  change (startswith [33; 91] ([91] ++ text ++ [93; 123] ++ attributes ++ [125] ++ post))
    with false. cbv iota.
  unfold bracket_brace. rewrite rmatch_seq_cons.
  change (word "[") with (lits [91]). rewrite rmatch_lits_app.
  rewrite rmatch_seq_cons. cbn [rmatch].
  rewrite lazy_star_skip; [| now apply dot_ok | ].
  2:{ intros m c u Hc. rewrite rmatch_seq_cons.
      change (word "]{") with (lits [93; 123]). now apply lits_fail_on with (x := text). }
  apply lazy_star_now. rewrite rmatch_seq_cons.
  change (word "]{") with (lits [93; 123]). rewrite rmatch_lits_app.
  rewrite rmatch_seq_cons. cbn [rmatch].
  rewrite lazy_star_skip; [| now apply dot_ok | ].
  2:{ intros m c u Hc. rewrite rmatch_seq_cons.
      change (word "}") with (lits [125]). now apply lits_fail_on with (x := attributes). }
  apply lazy_star_now. rewrite rmatch_seq_cons.
  change (word "}") with (lits [125]). rewrite rmatch_lits_app.
  cbn. unfold match_end. f_equal. lia.
Qed.

(** ** Substitution around a match *)

Lemma re_sub_aux_skip (r : regex) (m : str) :
  forall t, re_sub_aux r (List.length m) (m ++ t) = re_sub_aux r 0 t.
Proof.
  induction m as [| c m IH]; intros t; [reflexivity |]. cbn. apply IH.
Qed.

Lemma re_sub_context (r : regex) (pre m post : str) :
  (forall pre1 c pre2, pre = pre1 ++ c :: pre2 ->
                       re_match r (c :: pre2 ++ m ++ post) = None) ->
  m <> [] ->
  re_match r (m ++ post) = Some (List.length m) ->
  re_sub r (pre ++ m ++ post) = pre ++ re_sub r post.
Proof.
  unfold re_sub. intros Hpre Hm Hmatch.
  induction pre as [| c pre IH].
  - destruct m as [| c m]; [congruence |].
    cbn [app re_sub_aux]. cbn [app] in Hmatch. rewrite Hmatch.
    cbn [List.length]. apply re_sub_aux_skip.
  - cbn [app re_sub_aux]. rewrite (Hpre [] c pre eq_refl). f_equal.
    apply IH. intros pre1 d pre2 Heq. apply (Hpre (c :: pre1)). now rewrite Heq.
Qed.

Lemma re_sub_no_match (r : regex) (s : str) :
  (forall s1 c s2, s = s1 ++ c :: s2 -> re_match r (c :: s2) = None) ->
  re_sub r s = s.
Proof.
  unfold re_sub. induction s as [| c s IH]; intros H; [reflexivity |].
  cbn [re_sub_aux]. rewrite (H [] c s eq_refl). f_equal.
  apply IH. intros s1 d s2 Heq. apply (H (c :: s1)). now rewrite Heq.
Qed.

Lemma remove_image_string_plain (s : str) : ~ In 91 s -> remove_image_string s = s.
Proof.
  intros H. apply re_sub_no_match. intros s1 c s2 Heq.
  apply image_pattern_no_bracket.
  - intros ->. apply H. rewrite Heq. apply in_elt.
  - intros d s' -> ->. apply H. rewrite Heq. apply in_or_app. right. right. now left.
Qed.

Lemma image_none_in_prefix (pre rest : str) :
  ~ In 91 pre ->
  (~ In 33 pre \/ forall d s', rest = d :: s' -> d <> 91) ->
  forall pre1 c pre2, pre = pre1 ++ c :: pre2 ->
                      re_match image_pattern (c :: pre2 ++ rest) = None.
Proof.
  intros H91 Hor pre1 c pre2 Heq.
  assert (Hc : c <> 91).
  { intros ->. apply H91. rewrite Heq. apply in_elt. }
  destruct Hor as [H33 | Hhead].
  - apply image_pattern_start; cbn [startswith].
    + destruct (Z.eqb_spec 33 c) as [<- |]; [| reflexivity].
      exfalso. apply H33. rewrite Heq. apply in_elt.
    + destruct (Z.eqb_spec 91 c); [congruence | reflexivity].
  - apply image_pattern_no_bracket; [exact Hc |].
    intros d s' Hs. destruct pre2 as [| e pre2].
    + apply (Hhead d s'). exact Hs.
    + cbn in Hs. injection Hs as <- _. intros ->. apply H91. rewrite Heq.
      apply in_or_app. right. right. now left.
Qed.

End ImageFacts2.

(* ================================================================== *)
(** * Further properties of the normalisation *)

Ltac not_in_literal :=
  let H := fresh in
  intros H; cbn in H; intuition discriminate.

(** X1: a string without an opening bracket is returned unchanged by
    [remove_image_string]. *)
Theorem remove_image_string_without_bracket (input_string : str) :
  ~ In 91 input_string -> remove_image_string input_string = input_string.
Proof.
  exact (remove_image_string_plain input_string).
Qed.

Lemma remove_image_string_without_bracket_witness :
  ~ In 91 (py "1 + 1 = 2") /\
  remove_image_string (py "1 + 1 = 2") = py "1 + 1 = 2".
Proof.
  split; [not_in_literal |].
  apply (remove_image_string_without_bracket (py "1 + 1 = 2")). not_in_literal.
Defined.

(** X2: a plain image reference [![alt](url)] is removed from its line,
    and the text around it is kept, when the alternative text has no closing
    bracket, the address no closing parenthesis, neither spans lines, no
    opening brace follows, and the text around has no opening bracket. *)
Theorem remove_image_string_plain_image (before alt url after : str) :
  ~ In 91 before -> ~ In 91 after -> ~ In 123 after ->
  ~ In 10 alt -> ~ In 93 alt -> ~ In 123 alt ->
  ~ In 10 url -> ~ In 41 url -> ~ In 123 url ->
  remove_image_string (before ++ plain_image alt url ++ after) = before ++ after.
Proof.
  intros Hb Ha1 Ha2 Halt1 Halt2 Halt3 Hurl1 Hurl2 Hurl3.
  unfold remove_image_string. rewrite re_sub_context.
  - f_equal. now apply remove_image_string_plain.
  - apply image_none_in_prefix; [exact Hb |]. right.
    intros d s'. rewrite plain_image_app. cbn [app]. intros H. injection H as <- _.
    discriminate.
  - unfold plain_image. cbn. discriminate.
  - now apply re_match_plain_image.
Qed.

Lemma remove_image_string_plain_image_witness :
  remove_image_string
    (Sample.before ++ plain_image Sample.alt Sample.url ++ Sample.after)
  = Sample.before ++ Sample.after.
Proof.
  apply (@remove_image_string_plain_image
           Sample.before Sample.alt Sample.url Sample.after); not_in_literal.
Defined.

(** X3: an image reference with its size attributes
    [![alt](url){width="w" height="h"}] is removed whole from its line, and
    the text around it is kept, when the alternative text has no closing
    bracket, the address no closing parenthesis, the two sizes no quotation
    mark, none of them spans lines, and the text around has no opening
    bracket. *)
Theorem remove_image_string_sized_image (before alt url width height after : str) :
  ~ In 91 before -> ~ In 91 after ->
  ~ In 10 alt -> ~ In 93 alt -> ~ In 10 url -> ~ In 41 url ->
  ~ In 10 width -> ~ In 34 width -> ~ In 10 height -> ~ In 34 height ->
  remove_image_string (before ++ sized_image alt url width height ++ after)
  = before ++ after.
Proof.
  intros Hb Ha Halt1 Halt2 Hurl1 Hurl2 Hw1 Hw2 Hh1 Hh2.
  unfold remove_image_string. rewrite re_sub_context.
  - f_equal. now apply remove_image_string_plain.
  - apply image_none_in_prefix; [exact Hb |]. right.
    intros d s'. rewrite sized_image_app. cbn [app]. intros H. injection H as <- _.
    discriminate.
  - unfold sized_image. cbn. discriminate.
  - now apply re_match_sized_image.
Qed.

Lemma remove_image_string_sized_image_witness :
  remove_image_string
    (Sample.before
     ++ sized_image Sample.alt Sample.url Sample.width Sample.height
     ++ Sample.after)
  = Sample.before ++ Sample.after.
Proof.
  apply (@remove_image_string_sized_image
           Sample.before Sample.alt Sample.url Sample.width Sample.height
           Sample.after); not_in_literal.
Defined.

(** X4: a bracket-brace span [[text]{attributes}] is removed whole from
    its line, and the text around it is kept, when the text has no closing
    bracket, the attributes no closing brace, neither spans lines, the text
    before has no opening bracket and no exclamation mark, and the text after
    has no opening bracket. *)
Theorem remove_image_string_bracket_span (before text attributes after : str) :
  ~ In 91 before -> ~ In 33 before -> ~ In 91 after ->
  ~ In 10 text -> ~ In 93 text -> ~ In 10 attributes -> ~ In 125 attributes ->
  remove_image_string (before ++ bracket_span text attributes ++ after)
  = before ++ after.
Proof.
  intros Hb1 Hb2 Ha Ht1 Ht2 Hat1 Hat2.
  unfold remove_image_string. rewrite re_sub_context.
  - f_equal. now apply remove_image_string_plain.
  - apply image_none_in_prefix; [exact Hb1 | now left].
  - unfold bracket_span. cbn. discriminate.
  - now apply re_match_bracket_span.
Qed.

Lemma remove_image_string_bracket_span_witness :
  remove_image_string
    (Sample.before ++ bracket_span Sample.alt Sample.width ++ Sample.after)
  = Sample.before ++ Sample.after.
Proof.
  apply (@remove_image_string_bracket_span
           Sample.before Sample.alt Sample.width Sample.after); not_in_literal.
Defined.

(** X5: [remove_noise_character] works character by character: it
    distributes over concatenation, a second pass changes nothing, and a
    string without noise characters is returned unchanged. *)
Theorem remove_noise_character_composes (a b : str) :
  remove_noise_character (a ++ b) =
    remove_noise_character a ++ remove_noise_character b /\
  remove_noise_character (remove_noise_character a) = remove_noise_character a /\
  ((forall c, In c noise_set -> ~ In c a) -> remove_noise_character a = a).
Proof.
  rewrite !remove_noise_character_filter. unfold strip_chars. split; [| split].
  - apply filter_app.
  - induction a as [| c a IH]; [reflexivity |]. cbn [filter].
    destruct (negb (existsb (Z.eqb c) noise_set)) eqn:Hc; [| exact IH].
    cbn [filter]. rewrite Hc. now f_equal.
  - intros Hclean. induction a as [| c a IH]; [reflexivity |]. cbn [filter].
    destruct (existsb (Z.eqb c) noise_set) eqn:Hc.
    + apply existsb_eqb_In in Hc. exfalso. apply (Hclean c Hc). now left.
    + cbn [negb]. f_equal. apply IH. intros d Hd Hin. apply (Hclean d Hd). now right.
Qed.

Section LineFacts.

Lemma splitlines_aux_line (l : str) :
  forall cur rest,
    (forall c, In c l -> is_linebreak c = false) ->
    splitlines_aux cur (l ++ rest) = splitlines_aux (rev l ++ cur) rest.
Proof.
  induction l as [| c l IH]; intros cur rest Hl; [reflexivity |].
  cbn [app splitlines_aux]. rewrite (Hl c (or_introl eq_refl)).
  rewrite IH by (intros d Hd; apply Hl; now right).
  cbn [rev]. now rewrite <- app_assoc.
Qed.

Lemma splitlines_aux_end (cur : str) :
  cur <> [] -> splitlines_aux cur [] = [rev cur].
Proof. destruct cur; [congruence | reflexivity]. Qed.

Lemma splitlines_aux_line_feed (cur : str) (d : Z) (s : str) :
  splitlines_aux cur (10 :: d :: s) = rev cur :: splitlines_aux [] (d :: s).
Proof. reflexivity. Qed.

Lemma rev_not_nil (l : str) : l <> [] -> rev l <> [].
Proof.
  intros H Hrev. apply H. rewrite <- (rev_involutive l). now rewrite Hrev.
Qed.

(** Splitting what was joined by line feeds gives the lines back. *)
Lemma splitlines_join (ls : list str) :
  Forall (fun l => l <> [] /\ forall c, In c l -> is_linebreak c = false) ls ->
  splitlines (str_join [10] ls) = ls.
Proof.
  unfold splitlines. induction ls as [| l ls IH]; intros H; [reflexivity |].
  inversion H as [| ? ? [Hne Hl] Hrest]; subst.
  cbn [str_join]. destruct ls as [| l2 ls].
  - rewrite <- (app_nil_r l) at 1. rewrite splitlines_aux_line by exact Hl.
    rewrite app_nil_r, splitlines_aux_end by now apply rev_not_nil.
    now rewrite rev_involutive.
  - rewrite splitlines_aux_line by exact Hl. rewrite app_nil_r.
    specialize (IH Hrest).
    assert (Hnext : exists d s, str_join [10] (l2 :: ls) = d :: s).
    { inversion Hrest as [| ? ? [Hne2 _] _]; subst.
      destruct l2 as [| d l2]; [contradiction |].
      cbn [str_join]. destruct ls; cbn [app]; eauto. }
    destruct Hnext as [d [s Hds]]. rewrite Hds in *.
    cbn [app]. rewrite splitlines_aux_line_feed, rev_involutive. now f_equal.
Qed.

Lemma splitlines_aux_no_linebreak (n : nat) :
  forall s cur l c,
    (List.length s <= n)%nat ->
    (forall d, In d cur -> is_linebreak d = false) ->
    In l (splitlines_aux cur s) -> In c l -> is_linebreak c = false.
Proof.
  induction n as [| n IH]; intros s cur l c Hn Hcur Hl Hc.
  - destruct s; [| cbn in Hn; lia].
    cbn [splitlines_aux] in Hl. destruct cur; [destruct Hl |].
    destruct Hl as [<- | []]. apply Hcur. now apply in_rev.
  - destruct s as [| d s]; cbn [splitlines_aux] in Hl.
    + destruct cur; [destruct Hl |].
      destruct Hl as [<- | []]. apply Hcur. now apply in_rev.
    + cbn [List.length] in Hn.
      assert (Hrec : forall t, (List.length t <= n)%nat ->
                 In l (splitlines_aux [] t) -> is_linebreak c = false).
      { intros t Ht Hin. apply (IH t [] l c Ht); [intros ? [] | exact Hin | exact Hc]. }
      assert (Hhead : rev cur = l -> is_linebreak c = false).
      { intros <-. apply Hcur. now apply in_rev. }
      destruct (is_linebreak d) eqn:Hd.
      * destruct s as [| e s'].
        -- destruct Hl as [H | H]; [auto | destruct H].
        -- cbn [List.length] in Hn.
           destruct ((d =? 13) && (e =? 10)).
           ++ destruct Hl as [H | H]; [auto |]. apply (Hrec s'); [lia | exact H].
           ++ destruct Hl as [H | H]; [auto |].
              apply (Hrec (e :: s')); [cbn [List.length]; lia | exact H].
      * apply (IH s (d :: cur) l c); [lia | | exact Hl | exact Hc].
        intros x [<- | Hx]; [exact Hd | now apply Hcur].
Qed.

Lemma splitlines_no_linebreak (s l : str) (c : Z) :
  In l (splitlines s) -> In c l -> is_linebreak c = false.
Proof.
  intros Hl Hc.
  apply (@splitlines_aux_no_linebreak (List.length s) s [] l c);
    [lia | intros ? [] | exact Hl | exact Hc].
Qed.

Lemma clean_line_In (line : str) (c : Z) : In c (clean_line line) -> In c line.
Proof.
  unfold clean_line, remove_noise_character, remove_image_string, re_sub.
  intros H. apply re_sub_aux_In in H. now apply re_sub_aux_In in H.
Qed.

Lemma clean_text_line_kept (l : str) :
  clean_text_line l -> l <> [] /\ kept_line l = true /\ clean_line l = l.
Proof.
  intros [Hbreak [Hbracket [Hnoise Hstrip]]].
  assert (Himage : remove_image_string l = l) by now apply remove_image_string_plain.
  split; [| split].
  - intros ->. now apply Hstrip.
  - unfold kept_line, str_in_list. rewrite Himage. cbn [existsb].
    change (py EmptyString) with (@nil Z). change (py ">") with [62].
    rewrite (str_eqb_neq Hstrip).
    rewrite str_eqb_neq; [reflexivity |].
    intros H. apply (Hnoise 62); [cbn; tauto |].
    apply strip_In. rewrite H. now left.
  - unfold clean_line. rewrite Himage, remove_noise_character_filter.
    unfold strip_chars. clear - Hnoise.
    induction l as [| c l IH]; [reflexivity |]. cbn [filter].
    destruct (existsb (Z.eqb c) noise_set) eqn:Hc.
    + apply existsb_eqb_In in Hc. exfalso. apply (Hnoise c Hc). now left.
    + cbn [negb]. f_equal. apply IH. intros d Hd Hin. apply (Hnoise d Hd). now right.
Qed.

End LineFacts.

(** X6: a text of clean lines joined by line feeds (lines without a line
    boundary, an opening bracket or a noise character, and not blank) is
    returned unchanged by [one_text_pre_process]. *)
Theorem one_text_pre_process_clean_text (lines : list str) :
  Forall clean_text_line lines ->
  one_text_pre_process (str_join [10] lines) = str_join [10] lines.
Proof.
  intros H. rewrite one_text_pre_process_map_filter.
  rewrite splitlines_join.
  2:{ eapply Forall_impl; [| exact H]. intros l Hl.
      split; [now apply clean_text_line_kept | now destruct Hl]. }
  f_equal. induction H as [| l ls Hl Hls IH]; [reflexivity |].
  destruct (clean_text_line_kept Hl) as [_ [Hkept Hclean]].
  cbn [filter]. rewrite Hkept. cbn [map]. now rewrite Hclean, IH.
Qed.

Lemma one_text_pre_process_clean_text_witness :
  Forall clean_text_line Sample.clean_lines /\
  one_text_pre_process (str_join [10] Sample.clean_lines)
  = str_join [10] Sample.clean_lines.
Proof.
  assert (H : Forall clean_text_line Sample.clean_lines).
  { assert (Hline : forall l,
              (forall c, In c l -> is_linebreak c = false) ->
              ~ In 91 l -> (forall c, In c noise_set -> ~ In c l) ->
              strip l <> [] -> clean_text_line l).
    { intros l H1 H2 H3 H4. repeat split; assumption. }
    constructor; [| constructor; [| constructor]]; apply Hline;
      [ intros c Hc; cbn in Hc;
        repeat (destruct Hc as [<- | Hc]; [reflexivity |]); destruct Hc
      | not_in_literal
      | intros c Hc Hin; cbn in Hc, Hin; intuition congruence
      | vm_compute; discriminate
      | intros c Hc; cbn in Hc;
        repeat (destruct Hc as [<- | Hc]; [reflexivity |]); destruct Hc
      | not_in_literal
      | intros c Hc Hin; cbn in Hc, Hin; intuition congruence
      | vm_compute; discriminate ]. }
  split; [exact H |].
  apply (@one_text_pre_process_clean_text Sample.clean_lines H).
Defined.

(** X7: whatever line boundaries the input uses (carriage returns, form
    feeds, Unicode separators), the only line-boundary character in the
    output of [one_text_pre_process] is the line feed. *)
Theorem one_text_pre_process_line_feeds (text : str) (c : Z) :
  In c (one_text_pre_process text) -> is_linebreak c = true -> c = 10.
Proof.
  intros Hin Hbreak. rewrite one_text_pre_process_map_filter in Hin.
  apply str_join_In in Hin. destruct Hin as [[<- | []] | [l [Hl Hc]]];
    [reflexivity |].
  apply in_map_iff in Hl. destruct Hl as [line [<- Hline]].
  apply filter_In in Hline. destruct Hline as [Hline _].
  apply clean_line_In in Hc.
  rewrite (splitlines_no_linebreak _ _ _ Hline Hc) in Hbreak. discriminate.
Qed.

Lemma one_text_pre_process_line_feeds_witness :
  In 10 (one_text_pre_process (py "x" ++ [13; 10] ++ py "y")) /\
  is_linebreak 10 = true /\ 10 = 10.
Proof.
  assert (H : In 10 (one_text_pre_process (py "x" ++ [13; 10] ++ py "y"))).
  { vm_compute. tauto. }
  split; [exact H |]. split; [reflexivity |].
  apply (@one_text_pre_process_line_feeds (py "x" ++ [13; 10] ++ py "y") 10 H).
  reflexivity.
Defined.

(* ================================================================== *)
(** * Further properties of language detection *)

Section MoreLanguageFacts.

Variable lower : Z -> str.

Lemma count_permutation (p : Z -> bool) (l l' : str) :
  Permutation l l' -> count p l = count p l'.
Proof.
  unfold count. induction 1 as [| x l l' _ IH | x y l | l l' l'' _ IH1 _ IH2].
  - reflexivity.
  - cbn [filter]. destruct (p x); cbn [List.length]; now rewrite IH.
  - cbn [filter]. destruct (p x), (p y); reflexivity.
  - now rewrite IH1.
Qed.

Lemma count_app (p : Z -> bool) (l l' : str) :
  count p (l ++ l') = (count p l + count p l')%nat.
Proof. unfold count. now rewrite filter_app, length_app. Qed.

Lemma count_none (p : Z -> bool) (l : str) :
  (forall c, In c l -> p c = false) -> count p l = 0%nat.
Proof.
  unfold count. induction l as [| c l IH]; intros H; [reflexivity |].
  cbn [filter]. rewrite (H c (or_introl eq_refl)). apply IH.
  intros d Hd. apply H. now right.
Qed.

(** The answer as a function of the two counts. *)
Lemma detect_language_by_counts (text : str) :
  detect_language lower text =
  if (count (fun c => negb (is_cjk c) && lower_in_a_z lower c) text
      <? count is_cjk text)%nat then Chinese
  else if (count is_cjk text
           <? count (fun c => negb (is_cjk c) && lower_in_a_z lower c) text)%nat
       then English
       else Unknown.
Proof.
  unfold detect_language. now rewrite detect_language_counts.
Qed.

(** X8: [detect_language] does not depend on the order of the
    characters: two texts that are permutations of each other get the same
    label. *)
Theorem detect_language_permutation (text text' : str) :
  Permutation text text' ->
  detect_language lower text = detect_language lower text'.
Proof.
  intros H. rewrite !detect_language_by_counts.
  now rewrite (count_permutation _ H), (count_permutation is_cjk H).
Qed.

(** X9: inserting a character of the range U+4E00..U+9FFF anywhere in a
    text that is labelled Chinese leaves it labelled Chinese. *)
Theorem detect_language_more_cjk (before after : str) (c : Z) :
  is_cjk c = true ->
  detect_language lower (before ++ after) = Chinese ->
  detect_language lower (before ++ c :: after) = Chinese.
Proof.
  intros Hc. rewrite !detect_language_by_counts.
  change (c :: after) with ([c] ++ after). rewrite !count_app.
  assert (H1 : count is_cjk [c] = 1%nat).
  { unfold count. cbn [filter]. now rewrite Hc. }
  assert (H2 : count (fun d => negb (is_cjk d) && lower_in_a_z lower d) [c] = 0%nat).
  { unfold count. cbn [filter]. now rewrite Hc. }
  rewrite H1, H2.
  repeat match goal with
         | |- context [(?x <? ?y)%nat] => destruct (Nat.ltb_spec x y)
         end;
    intros Hlabel; try reflexivity; try discriminate; lia.
Qed.

(** X10: a text without any character of the range U+4E00..U+9FFF is
    never labelled Chinese (the empty text included), and it is labelled
    Unknown when, in addition, no character has a lowercase form between [a]
    and [z]. *)
Theorem detect_language_without_cjk (text : str) :
  (forall c, In c text -> is_cjk c = false) ->
  detect_language lower text <> Chinese /\
  ((forall c, In c text -> lower_in_a_z lower c = false) ->
   detect_language lower text = Unknown).
Proof.
  intros Hcjk. rewrite detect_language_by_counts.
  rewrite (count_none is_cjk text Hcjk). split.
  - destruct (Nat.ltb_spec
                (count (fun c => negb (is_cjk c) && lower_in_a_z lower c) text) 0);
      [lia |]. destruct (_ <? _)%nat; discriminate.
  - intros Hletters. rewrite count_none; [reflexivity |].
    intros c Hc. rewrite (Hletters c Hc). apply andb_false_r.
Qed.

End MoreLanguageFacts.

Lemma detect_language_permutation_witness :
  Permutation [35797; 65; 21367] [65; 21367; 35797] /\
  detect_language Demo.lower_table [35797; 65; 21367] =
  detect_language Demo.lower_table [65; 21367; 35797].
Proof.
  assert (H : Permutation [35797; 65; 21367] [65; 21367; 35797]).
  { apply (@Permutation_cons_app Z [65; 21367] [65; 21367] [] 35797).
    apply Permutation_refl. }
  split; [exact H |].
  apply (@detect_language_permutation Demo.lower_table _ _ H).
Defined.

Lemma detect_language_more_cjk_witness :
  is_cjk 21367 = true /\
  detect_language Demo.lower_table ([35797; 65] ++ [66; 35797; 35797]) = Chinese /\
  detect_language Demo.lower_table ([35797; 65] ++ 21367 :: [66; 35797; 35797])
  = Chinese.
Proof.
  split; [reflexivity |]. split; [reflexivity |].
  apply (@detect_language_more_cjk Demo.lower_table [35797; 65] [66; 35797; 35797]
           21367); reflexivity.
Defined.

Lemma detect_language_without_cjk_witness :
  detect_language Demo.lower_table (py "12 + 30") <> Chinese /\
  ((forall c, In c (py "12 + 30") -> lower_in_a_z Demo.lower_table c = false) ->
   detect_language Demo.lower_table (py "12 + 30") = Unknown).
Proof.
  apply (@detect_language_without_cjk Demo.lower_table (py "12 + 30")).
  intros c Hc. cbn in Hc.
  repeat (destruct Hc as [<- | Hc]; [reflexivity |]). destruct Hc.
Defined.

(* ================================================================== *)
(** * Further properties of the file-name heuristic and of extraction *)

Section HeuristicFacts.

Lemma startswith_In (p s : str) (c : Z) :
  startswith p s = true -> In c p -> In c s.
Proof.
  revert s. induction p as [| x p IH]; intros s Hstart Hc; [destruct Hc |].
  destruct s as [| y s]; [discriminate |]. cbn [startswith] in Hstart.
  apply andb_true_iff in Hstart. destruct Hstart as [Hxy Hrest].
  apply Z.eqb_eq in Hxy. subst y.
  destruct Hc as [<- | Hc]; [now left | right; now apply IH].
Qed.

Lemma str_contains_In (sub s : str) (c : Z) :
  str_contains sub s = true -> In c sub -> In c s.
Proof.
  induction s as [| y s IH]; cbn [str_contains]; intros H Hc.
  - rewrite orb_false_r in H. now apply (startswith_In sub).
  - apply orb_true_iff in H. destruct H as [H | H].
    + now apply (startswith_In sub).
    + right. now apply IH.
Qed.

Lemma In_str_contains (c : Z) (s : str) : In c s -> str_contains [c] s = true.
Proof.
  induction s as [| y s IH]; [intros [] |].
  intros [-> | H]; cbn [str_contains startswith].
  - now rewrite Z.eqb_refl.
  - rewrite (IH H). apply orb_true_r.
Qed.

(** X11: the file-name heuristic accepts a name exactly when the name
    contains the character U+8BD5 or the character U+5377; the three
    two-character keywords add nothing. *)
Theorem judge_examination_paper_by_two_characters (file_name : str) :
  judge_examination_paper_by_file_name file_name = true <->
  In 35797 file_name \/ In 21367 file_name.
Proof.
  unfold judge_examination_paper_by_file_name, EXAMINATION_KEY_WORDS.
  cbn [existsb]. rewrite orb_false_r. split.
  - intros H. repeat (apply orb_true_iff in H; destruct H as [H | H]).
    + left. apply (str_contains_In _ _ 35797 H). cbn. tauto.
    + left. apply (str_contains_In _ _ 35797 H). cbn. tauto.
    + right. apply (str_contains_In _ _ 21367 H). cbn. tauto.
    + left. apply (str_contains_In _ _ 35797 H). cbn. tauto.
    + left. apply (str_contains_In _ _ 35797 H). cbn. tauto.
  - intros [H | H].
    + rewrite (In_str_contains _ _ H). now rewrite !orb_true_r.
    + rewrite (In_str_contains _ _ H). now rewrite !orb_true_r.
Qed.

End HeuristicFacts.

Section MoreExtractionFacts.

Variable FS : Type.
Variable E : Env FS.

Lemma paragraphs_fold (paragraphs : list str) :
  forall text,
    fold_left (fun text paragraph => text ++ paragraph ++ py " ") paragraphs text
    = text ++ flat_map (fun paragraph => paragraph ++ [32]) paragraphs.
Proof.
  induction paragraphs as [| p ps IH]; intros text; cbn [fold_left flat_map].
  - now rewrite app_nil_r.
  - rewrite IH. now rewrite <- !app_assoc.
Qed.

(** The text [extract_text_from_docx] returns is the paragraph
    texts in document order, each followed by one space (the last one too),
    so it has one character more per paragraph than the paragraphs have
    together. *)
Theorem extract_text_from_docx_paragraphs (file_path : str) (paragraphs : list str) :
  docx_paragraphs E file_path = Ok paragraphs ->
  extract_text_from_docx E file_path =
    Ok (flat_map (fun paragraph => paragraph ++ [32]) paragraphs) /\
  List.length (flat_map (fun paragraph => paragraph ++ [32]) paragraphs) =
    (List.length (List.concat paragraphs) + List.length paragraphs)%nat.
Proof.
  intros H. unfold extract_text_from_docx. rewrite H. cbn [bind].
  rewrite paragraphs_fold. split; [reflexivity |].
  clear H. induction paragraphs as [| p ps IH]; [reflexivity |].
  cbn [flat_map List.concat List.length]. rewrite !length_app, IH. cbn. lia.
Qed.

End MoreExtractionFacts.

Lemma extract_text_from_docx_paragraphs_witness :
  docx_paragraphs Sample.env (py "a.docx") = Ok Sample.paragraphs /\
  extract_text_from_docx Sample.env (py "a.docx") = Ok (py "Part one Part two ").
Proof.
  split; [reflexivity |].
  destruct (@extract_text_from_docx_paragraphs Demo.paths Sample.env (py "a.docx")
              Sample.paragraphs eq_refl) as [H _].
  exact H.
Defined.

(* ================================================================== *)
(** * Further properties of the threshold *)

(** When the threshold is not a number, the comparison is false for
    every probability and every text gets the label 0. *)
Theorem get_predict_with_threshold_nan
    (model : classifier) (X : list str) (probabilities : list (float * float)) :
  model X = Ok probabilities ->
  get_predict_with_threshold model X S754_nan =
  Ok (map (fun _ => 0) probabilities, map snd probabilities).
Proof.
  intros H. unfold get_predict_with_threshold. rewrite H. cbn [bind].
  do 2 f_equal. rewrite map_map. apply map_ext. reflexivity.
Qed.

Lemma get_predict_with_threshold_nan_witness :
  get_predict_with_threshold (Demo.constant_model Demo.three_quarters)
                             [py "text"] S754_nan
  = Ok ([0], [Demo.three_quarters]).
Proof.
  apply (@get_predict_with_threshold_nan
           (Demo.constant_model Demo.three_quarters) [py "text"]
           [(S754_zero false, Demo.three_quarters)]).
  reflexivity.
Defined.

(* ================================================================== *)
(** * Further properties of the batch driver *)

Section DriverFacts.

Variable FS : Type.
Variable E : Env FS.
Variables input_dir output_dir : str.
Variable threshold : float.
Variable model : classifier.
Variable just_by_file_name : bool.

Local Abbreviation target_file := (target_file_of E input_dir output_dir).
Local Abbreviation file_local := (file_local_of E).
Local Abbreviation is_supported := (supported E).
Local Abbreviation step :=
  (process_row E input_dir output_dir threshold model just_by_file_name).
Local Abbreviation loop :=
  (move_files_loop E input_dir output_dir threshold model just_by_file_name).
Local Abbreviation act :=
  (classify_and_act E input_dir output_dir threshold model just_by_file_name).
Local Abbreviation run :=
  (move_files E input_dir output_dir threshold model just_by_file_name).

(** X12: files whose extension is neither [.doc] nor [.docx] are passed
    over: a run of the loop over such files leaves the world as it was (no
    extraction, no copy, no log line) and completes. *)
Theorem move_files_loop_other_suffixes
    (w : world FS) (pp : option (list float)) (rows : list (str * str)) :
  Forall (fun row => str_in_list (ext_of E row) FILE_SUFFIX = false) rows ->
  loop w pp rows = (w, Done).
Proof.
  induction 1 as [| row rows Hrow _ IH]; [reflexivity |].
  cbn [move_files_loop].
  now rewrite (move_files_skips_other_suffix E input_dir output_dir threshold model
                 just_by_file_name w pp row Hrow).
Qed.

(** X13: a document whose text is not labelled Chinese is skipped after
    the extraction: no classification, no copy, no line in either log, and
    the loop goes on with the next file. *)
Theorem move_files_skips_text_in_other_language
    (w : world FS) (pp : option (list float)) (row : str * str)
    (rest : list (str * str)) (text : str) :
  is_supported row ->
  os_path_exists E (fs w) (target_file row) = false ->
  extract_text E (file_local row) (ext_of E row) = Ok text ->
  detect_language (str_lower E) text <> Chinese ->
  loop w pp (row :: rest) =
    loop (add_event w (CallExtract (file_local row) (ext_of E row))) pp rest /\
  chinese_text E row = None.
Proof.
  intros Hsup Habsent Htext Hlang. split.
  - cbn [move_files_loop].
    now rewrite (@move_files_skips_other_language FS E input_dir output_dir
                   threshold model just_by_file_name w pp row text
                   Hsup Habsent Htext Hlang).
  - unfold chinese_text. rewrite Htext.
    destruct (detect_language (str_lower E) text); try reflexivity. now elim Hlang.
Qed.

(** ** Logs only grow *)

Lemma extends_refl (w : world FS) : extends w w.
Proof. repeat split; exists []; now rewrite app_nil_r. Qed.

Lemma extends_trans (w1 w2 w3 : world FS) :
  extends w1 w2 -> extends w2 w3 -> extends w1 w3.
Proof.
  intros [[a1 Ha1] [[b1 Hb1] [c1 Hc1]]] [[a2 Ha2] [[b2 Hb2] [c2 Hc2]]].
  repeat split.
  - exists (a1 ++ a2). now rewrite Ha2, Ha1, app_assoc.
  - exists (b1 ++ b2). now rewrite Hb2, Hb1, app_assoc.
  - exists (c1 ++ c2). now rewrite Hc2, Hc1, app_assoc.
Qed.

Lemma extends_set_fs (w : world FS) (f : FS) : extends w (set_fs w f).
Proof. repeat split; exists []; cbn; now rewrite app_nil_r. Qed.

Lemma extends_add_event (w : world FS) (e : event) : extends w (add_event w e).
Proof.
  repeat split; [exists [] | exists [] | exists [e]]; cbn;
    now rewrite ?app_nil_r.
Qed.

Lemma extends_name_log (w : world FS) (l : str) :
  extends w (write_classification_by_file_name_log w l).
Proof.
  repeat split; [exists [l] | exists [] | exists []]; cbn;
    now rewrite ?app_nil_r.
Qed.

Lemma extends_move_log (w : world FS) (l : log_line) : extends w (write_move_log w l).
Proof.
  repeat split; [exists [] | exists [l] | exists []]; cbn;
    now rewrite ?app_nil_r.
Qed.

Lemma copy_if_predicted_extends (w : world FS) (predict : pyval) (row : str * str) :
  extends w (fst (copy_if_predicted E input_dir output_dir w predict row)).
Proof.
  unfold copy_if_predicted. destruct (truthy predict); [| apply extends_refl].
  destruct (path_mkdir E (fs w) _) as [fs1 | e]; [| apply extends_refl].
  destruct (shutil_copy E fs1 _ _) as [fs2 | e]; cbn [fst].
  - eapply extends_trans; [apply extends_set_fs |].
    eapply extends_trans; [apply extends_add_event | apply extends_set_fs].
  - eapply extends_trans; [apply extends_set_fs | apply extends_add_event].
Qed.

Lemma log_move_extends
    (w : world FS) (predict : pyval) (pp : option (list float)) (row : str * str) :
  extends w (world_of (log_move E w predict pp row)).
Proof.
  unfold log_move. destruct pp as [[| p ps] |]; cbn [world_of];
    [apply extends_refl | apply extends_move_log | apply extends_refl].
Qed.

Lemma copy_and_log_extends
    (w : world FS) (predict : pyval) (pp : option (list float)) (row : str * str) :
  extends w (world_of (copy_and_log E input_dir output_dir w predict pp row)).
Proof.
  unfold copy_and_log.
  pose proof (copy_if_predicted_extends w predict row) as H.
  destruct (copy_if_predicted E input_dir output_dir w predict row) as [w1 [e |]];
    cbn [fst world_of] in *; [exact H |].
  eapply extends_trans; [exact H | apply log_move_extends].
Qed.

Lemma act_extends
    (w : world FS) (pp : option (list float)) (row : str * str) (text : str) :
  extends w (world_of (act w pp row text)).
Proof.
  unfold classify_and_act.
  destruct (just_by_file_name || (Z.of_nat (List.length text) <? 50)).
  - eapply extends_trans; [| apply copy_and_log_extends].
    destruct (judge_examination_paper_by_file_name (snd row));
      [apply extends_name_log | apply extends_refl].
  - destruct (get_predict_with_threshold model [one_text_pre_process text] threshold)
      as [[[| predict predictions] pps] | e]; cbn [world_of].
    + apply extends_add_event.
    + eapply extends_trans; [apply extends_add_event | apply copy_and_log_extends].
    + apply extends_add_event.
Qed.

Lemma step_extends (w : world FS) (pp : option (list float)) (row : str * str) :
  extends w (world_of (step w pp row)).
Proof.
  unfold process_row.
  destruct (negb (str_in_list (ext_of E row) FILE_SUFFIX)); [apply extends_refl |].
  destruct (os_path_exists E (fs w) (target_file row)); [apply extends_refl |].
  destruct (extract_text E (file_local row) (ext_of E row)) as [text | e];
    [| apply extends_add_event].
  destruct (negb (language_eqb (detect_language (str_lower E) text) Chinese));
    [apply extends_add_event |].
  eapply extends_trans; [apply extends_add_event | apply act_extends].
Qed.

Lemma loop_extends (rows : list (str * str)) :
  forall (w : world FS) (pp : option (list float)),
    extends w (fst (loop w pp rows)).
Proof.
  induction rows as [| row rows IH]; intros w pp; cbn [move_files_loop].
  - apply extends_refl.
  - pose proof (step_extends w pp row) as H.
    destruct (step w pp row) as [w1 pp1 | w1 e]; cbn [world_of fst] in *.
    + eapply extends_trans; [exact H | apply IH].
    + exact H.
Qed.

(** X14: [move_files] only appends to its two logs: however a run ends,
    the file-name log and the move log it leaves start with the logs it
    found. *)
Theorem move_files_appends_to_logs (w : world FS) :
  (exists lines, name_log (fst (run w)) = name_log w ++ lines) /\
  (exists lines, move_log (fst (run w)) = move_log w ++ lines).
Proof.
  assert (H : extends w (fst (run w))).
  { unfold move_files.
    destruct (negb (os_path_exists E (fs w) input_dir)); [apply extends_refl |].
    destruct (str_eqb (os_path_abspath E input_dir) (os_path_abspath E output_dir));
      [apply extends_refl |].
    destruct (os_makedirs E (fs w) output_dir) as [fs1 | e]; [| apply extends_refl].
    eapply extends_trans; [apply extends_set_fs | apply loop_extends]. }
  destruct H as [Hname [Hmove _]]. split; assumption.
Qed.

End DriverFacts.

Lemma move_files_loop_other_suffixes_witness :
  move_files_loop (Demo.env Demo.one_doc None) Demo.in_dir Demo.out_dir Demo.half
                  Demo.broken_model false Demo.start None [Sample.notes]
  = (Demo.start, Done).
Proof.
  apply (@move_files_loop_other_suffixes
           Demo.paths (Demo.env Demo.one_doc None) Demo.in_dir Demo.out_dir
           Demo.half Demo.broken_model false Demo.start None [Sample.notes]).
  repeat constructor.
Defined.

Lemma move_files_skips_text_in_other_language_witness :
  extract_text (Demo.env Demo.one_doc None)
               (file_local_of (Demo.env Demo.one_doc None) Sample.latin_doc)
               (ext_of (Demo.env Demo.one_doc None) Sample.latin_doc)
    = Ok (py "plain words") /\
  detect_language Demo.lower_table (py "plain words") = English /\
  move_files_loop (Demo.env Demo.one_doc None) Demo.in_dir Demo.out_dir Demo.half
                  Demo.broken_model false Demo.start None
                  [Sample.latin_doc; Sample.notes]
  = (add_event Demo.start (CallExtract (py "in/latin.doc") (py ".doc")), Done).
Proof.
  split; [reflexivity |]. split; [reflexivity |].
  assert (Hlang : detect_language (str_lower (Demo.env Demo.one_doc None))
                                  (py "plain words") <> Chinese).
  { vm_compute. discriminate. }
  destruct (@move_files_skips_text_in_other_language
              Demo.paths (Demo.env Demo.one_doc None) Demo.in_dir Demo.out_dir
              Demo.half Demo.broken_model false Demo.start None Sample.latin_doc
              [Sample.notes] (py "plain words") eq_refl eq_refl eq_refl Hlang)
    as [H _].
  rewrite H. reflexivity.
Defined.

Section FileNameMode.

Variable FS : Type.
Variable E : Env FS.
Variables input_dir output_dir : str.
Variable threshold : float.

Local Abbreviation target_file := (target_file_of E input_dir output_dir).
Local Abbreviation file_local := (file_local_of E).
Local Abbreviation is_supported := (supported E).

Lemma copy_if_predicted_logs (w : world FS) (predict : pyval) (row : str * str) :
  name_log (fst (copy_if_predicted E input_dir output_dir w predict row))
    = name_log w /\
  move_log (fst (copy_if_predicted E input_dir output_dir w predict row))
    = move_log w.
Proof.
  unfold copy_if_predicted. destruct (truthy predict); [| now split].
  destruct (path_mkdir E (fs w) _) as [fs1 | e]; [| now split].
  destruct (shutil_copy E fs1 _ _) as [fs2 | e]; now split.
Qed.

(** In the file-name mode a decision never completes: the copy fails, or
    the line of the move log cannot be written. *)
Lemma act_file_name_mode
    (model : classifier) (w : world FS) (row : str * str) (text : str) :
  exists w' e,
    classify_and_act E input_dir output_dir threshold model true w None row text
      = Abort w' e /\
    move_log w' = move_log w.
Proof.
  unfold classify_and_act. cbn [orb]. unfold copy_and_log.
  set (w1 := if judge_examination_paper_by_file_name (snd row)
             then write_classification_by_file_name_log w (target_file row)
             else w).
  assert (Hw1 : move_log w1 = move_log w).
  { unfold w1. now destruct (judge_examination_paper_by_file_name (snd row)). }
  destruct (copy_if_predicted_logs w1
              (PBool (judge_examination_paper_by_file_name (snd row))) row)
    as [_ Hmove].
  destruct (copy_if_predicted E input_dir output_dir w1 _ row) as [w2 [e |]];
    cbn [fst] in Hmove.
  - exists w2, e. split; [reflexivity | congruence].
  - exists w2, UnboundLocalError. split; [reflexivity | congruence].
Qed.

Lemma step_file_name_mode (model : classifier) (w : world FS) (row : str * str) :
  move_log (world_of (process_row E input_dir output_dir threshold model true
                                  w None row)) = move_log w /\
  forall w' pp',
    process_row E input_dir output_dir threshold model true w None row
      = Next w' pp' ->
    pp' = None /\ fs w' = fs w /\ name_log w' = name_log w /\
    (is_supported row ->
     os_path_exists E (fs w) (target_file row) = true \/ chinese_text E row = None).
Proof.
  unfold process_row, supported, chinese_text.
  destruct (str_in_list (ext_of E row) FILE_SUFFIX) eqn:Hext; cbn [negb].
  2:{ split; [reflexivity |]. intros w' pp' H. injection H as <- <-.
      repeat split. discriminate. }
  destruct (os_path_exists E (fs w) (target_file row)) eqn:Hexists.
  { split; [reflexivity |]. intros w' pp' H. injection H as <- <-.
    repeat split. now left. }
  destruct (extract_text E (file_local row) (ext_of E row)) as [text | e].
  2:{ split; [reflexivity |]. intros w' pp' H. injection H as <- <-.
      repeat split. now right. }
  destruct (negb (language_eqb (detect_language (str_lower E) text) Chinese)).
  { split; [reflexivity |]. intros w' pp' H. injection H as <- <-.
    repeat split. now right. }
  destruct (act_file_name_mode model
              (add_event w (CallExtract (file_local row) (ext_of E row))) row text)
    as [w' [e [Hact Hmove]]].
  rewrite Hact. split; [exact Hmove |]. intros ? ? H. discriminate.
Qed.

Lemma loop_file_name_mode (model : classifier) (rows : list (str * str)) :
  forall w : world FS,
    move_log (fst (move_files_loop E input_dir output_dir threshold model true
                                   w None rows)) = move_log w /\
    forall w',
      move_files_loop E input_dir output_dir threshold model true w None rows
        = (w', Done) ->
      fs w' = fs w /\ name_log w' = name_log w /\
      forall row, In row rows -> is_supported row ->
                  os_path_exists E (fs w) (target_file row) = true \/
                  chinese_text E row = None.
Proof.
  induction rows as [| row rows IH]; intros w; cbn [move_files_loop].
  - split; [reflexivity |]. intros w' H. injection H as <-.
    repeat split. intros row [].
  - destruct (step_file_name_mode model w row) as [Hmove Hnext].
    destruct (process_row E input_dir output_dir threshold model true w None row)
      as [w1 pp1 | w1 e]; cbn [world_of] in Hmove.
    + destruct (Hnext w1 pp1 eq_refl) as [-> [Hfs [Hname Hrow]]].
      destruct (IH w1) as [Hmove1 Hdone1]. split; [congruence |].
      intros w' Hrun. destruct (Hdone1 w' Hrun) as [Hfs' [Hname' Hrows]].
      repeat split; try congruence.
      intros r [<- | Hr] Hsup; [now apply Hrow |].
      rewrite <- Hfs. now apply Hrows.
    + split; [exact Hmove |]. intros w' H. discriminate.
Qed.

(** X15: in the file-name mode, [move_files] never writes a line to the
    move log, however the run ends. *)
Theorem file_name_mode_leaves_move_log (model : classifier) (w : world FS) :
  move_log (fst (move_files E input_dir output_dir threshold model true w))
  = move_log w.
Proof.
  unfold move_files.
  destruct (negb (os_path_exists E (fs w) input_dir)); [reflexivity |].
  destruct (str_eqb (os_path_abspath E input_dir) (os_path_abspath E output_dir));
    [reflexivity |].
  destruct (os_makedirs E (fs w) output_dir) as [fs1 | e]; [| reflexivity].
  now destruct (loop_file_name_mode model (all_file_of (os_walk E fs1 input_dir))
                  (set_fs w fs1)) as [-> _].
Qed.

(** X16: in the file-name mode, a run of [move_files] completes only
    when it has no file to decide: every document listed has its copy
    already, cannot be read, or is not in Chinese; such a run writes nothing
    to the file-name log. *)
Theorem file_name_mode_completes_without_decision
    (model : classifier) (w w' : world FS) :
  move_files E input_dir output_dir threshold model true w = (w', Done) ->
  name_log w' = name_log w /\
  forall row, In row (all_file_of (os_walk E (fs w') input_dir)) ->
              is_supported row ->
              os_path_exists E (fs w') (target_file row) = true \/
              chinese_text E row = None.
Proof.
  unfold move_files.
  destruct (negb (os_path_exists E (fs w) input_dir)); [discriminate |].
  destruct (str_eqb (os_path_abspath E input_dir) (os_path_abspath E output_dir));
    [discriminate |].
  destruct (os_makedirs E (fs w) output_dir) as [fs1 | e]; [| discriminate].
  intros Hrun.
  destruct (loop_file_name_mode model (all_file_of (os_walk E fs1 input_dir))
              (set_fs w fs1)) as [_ Hdone].
  destruct (Hdone w' Hrun) as [Hfs [Hname Hrows]]. cbn in Hfs, Hname.
  split; [exact Hname |]. rewrite Hfs. exact Hrows.
Qed.

(** In the file-name mode the classifier is never consulted: the
    run is the same whatever the model is. *)
Theorem file_name_mode_ignores_model (model model' : classifier) (w : world FS) :
  move_files E input_dir output_dir threshold model true w =
  move_files E input_dir output_dir threshold model' true w.
Proof.
  unfold move_files.
  destruct (negb (os_path_exists E (fs w) input_dir)); [reflexivity |].
  destruct (str_eqb (os_path_abspath E input_dir) (os_path_abspath E output_dir));
    [reflexivity |].
  destruct (os_makedirs E (fs w) output_dir) as [fs1 | e]; [| reflexivity].
  generalize (set_fs w fs1) (@None (list float)).
  induction (all_file_of (os_walk E fs1 input_dir)) as [| row rows IH];
    intros w0 pp; [reflexivity |].
  cbn [move_files_loop].
  replace (process_row E input_dir output_dir threshold model' true w0 pp row)
    with (process_row E input_dir output_dir threshold model true w0 pp row)
    by reflexivity.
  destruct (process_row E input_dir output_dir threshold model true w0 pp row);
    [apply IH | reflexivity].
Qed.

End FileNameMode.

Lemma file_name_mode_completes_without_decision_witness :
  move_files (Demo.env Sample.latin_only None) Demo.in_dir Demo.out_dir Demo.half
             Demo.broken_model true Demo.start
  = (add_event (set_fs Demo.start [py "out"; py "in"])
               (CallExtract (py "in/latin.doc") (py ".doc")), Done) /\
  name_log (add_event (set_fs Demo.start [py "out"; py "in"])
                      (CallExtract (py "in/latin.doc") (py ".doc")))
  = name_log Demo.start.
Proof.
  assert (H : move_files (Demo.env Sample.latin_only None) Demo.in_dir Demo.out_dir
                Demo.half Demo.broken_model true Demo.start
              = (add_event (set_fs Demo.start [py "out"; py "in"])
                           (CallExtract (py "in/latin.doc") (py ".doc")), Done)).
  { vm_compute. reflexivity. }
  split; [exact H |].
  destruct (@file_name_mode_completes_without_decision
              Demo.paths (Demo.env Sample.latin_only None) Demo.in_dir Demo.out_dir
              Demo.half Demo.broken_model Demo.start _ H) as [Hname _].
  exact Hname.
Defined.

Section DecisionFacts.

Variable FS : Type.
Variable E : Env FS.
Variables input_dir output_dir : str.
Variable threshold : float.
Variable model : classifier.
Variable just_by_file_name : bool.

Local Abbreviation target_file := (target_file_of E input_dir output_dir).
Local Abbreviation target_dir := (target_dir_of E input_dir output_dir).
Local Abbreviation file_local := (file_local_of E).
Local Abbreviation is_supported := (supported E).
Local Abbreviation step :=
  (process_row E input_dir output_dir threshold model just_by_file_name).
Local Abbreviation loop :=
  (move_files_loop E input_dir output_dir threshold model just_by_file_name).
Local Abbreviation accepted := (accepts E threshold model just_by_file_name).

Lemma chinese_text_Some (row : str * str) (text : str) :
  chinese_text E row = Some text ->
  extract_text E (file_local row) (ext_of E row) = Ok text /\
  negb (language_eqb (detect_language (str_lower E) text) Chinese) = false.
Proof.
  unfold chinese_text.
  destruct (extract_text E (file_local row) (ext_of E row)) as [t | e];
    [| discriminate].
  destruct (negb (language_eqb (detect_language (str_lower E) t) Chinese)) eqn:H;
    [discriminate |].
  intros Heq. injection Heq as <-. now split.
Qed.

(** The turn of the loop for a document that reaches the decision. *)
Lemma step_decides
    (w : world FS) (pp : option (list float)) (row : str * str) (text : str) :
  is_supported row ->
  os_path_exists E (fs w) (target_file row) = false ->
  chinese_text E row = Some text ->
  step w pp row =
  classify_and_act E input_dir output_dir threshold model just_by_file_name
    (add_event w (CallExtract (file_local row) (ext_of E row))) pp row text.
Proof.
  unfold supported. intros Hsup Habsent Htext.
  destruct (chinese_text_Some _ Htext) as [Hextract Hlang].
  unfold process_row. now rewrite Hsup, Habsent, Hextract, Hlang.
Qed.

(** X17: a file the driver rejects is never copied: whenever the
    decision for a file is negative, its turn of the loop, however it ends,
    leaves the file system and the file-name log as they were. *)
Theorem move_files_never_copies_rejected
    (w : world FS) (pp : option (list float)) (row : str * str) :
  accepted row = false ->
  fs (world_of (step w pp row)) = fs w /\
  name_log (world_of (step w pp row)) = name_log w.
Proof.
  intros Hreject.
  destruct (@step_without_copy FS E input_dir output_dir threshold model
              just_by_file_name w pp row (fun _ => or_intror Hreject))
    as [Hfs [Hname _]].
  now split.
Qed.

(** X18: for a document the classifier decides, the line written to the
    move log carries the document's own probability and a label that agrees
    with it: 1 exactly when the probability exceeds the threshold.  The
    file-name log is not written. *)
Theorem move_files_logs_own_probability
    (w : world FS) (pp : option (list float)) (row : str * str) (text : str)
    (w' : world FS) (pp' : option (list float)) :
  is_supported row ->
  os_path_exists E (fs w) (target_file row) = false ->
  chinese_text E row = Some text ->
  by_file_name just_by_file_name text = false ->
  step w pp row = Next w' pp' ->
  exists label p rest,
    model [one_text_pre_process text] = Ok ((fst p, snd p) :: rest) /\
    labelled threshold (snd p) label /\
    pp' = Some (snd p :: map snd rest) /\
    name_log w' = name_log w /\
    move_log w' = move_log w ++ [{| line_predict := PInt label;
                                    line_probability := snd p;
                                    line_path := file_local row |}].
Proof.
  intros Hsup Habsent Htext Hmode. rewrite (step_decides w pp Hsup Habsent Htext).
  unfold classify_and_act, by_file_name in *. rewrite Hmode.
  unfold get_predict_with_threshold.
  destruct (model [one_text_pre_process text]) as [[| p rest] | e]; cbn [bind map];
    try discriminate.
  unfold copy_and_log. intros Hstep.
  pose proof (copy_if_predicted_logs E input_dir output_dir
                (add_event (add_event w (CallExtract (file_local row) (ext_of E row)))
                           (CallPredict [one_text_pre_process text]))
                (PInt (if float_gt (snd p) threshold then 1 else 0)) row)
    as [Hname Hmove].
  destruct (copy_if_predicted E input_dir output_dir _ _ row) as [w2 [e |]];
    [discriminate |].
  cbn [fst] in Hname, Hmove. cbn [log_move] in Hstep. injection Hstep as <- <-.
  exists (if float_gt (snd p) threshold then 1 else 0), p, rest.
  destruct p as [p0 p1]. cbn [fst snd write_move_log name_log move_log].
  split; [reflexivity |]. split; [apply threshold_label |].
  split; [reflexivity |]. split; [exact Hname |]. now rewrite Hmove.
Qed.

(** X19: an exception of the classifier is not caught: the run ends with
    it at that document, after the extraction and the call of the classifier
    and before any copy or log line, and the files that follow are not
    processed. *)
Theorem move_files_classifier_error
    (w : world FS) (pp : option (list float)) (row : str * str) (text : str)
    (rest : list (str * str)) (e : exn) :
  is_supported row ->
  os_path_exists E (fs w) (target_file row) = false ->
  chinese_text E row = Some text ->
  by_file_name just_by_file_name text = false ->
  model [one_text_pre_process text] = Raise e ->
  loop w pp (row :: rest) =
  (add_event (add_event w (CallExtract (file_local row) (ext_of E row)))
             (CallPredict [one_text_pre_process text]),
   Raised e).
Proof.
  intros Hsup Habsent Htext Hmode Hmodel. cbn [move_files_loop].
  rewrite (step_decides w pp Hsup Habsent Htext).
  unfold classify_and_act, by_file_name in *. rewrite Hmode.
  unfold get_predict_with_threshold. rewrite Hmodel. reflexivity.
Qed.


End DecisionFacts.

Section CopyFacts.

Variable FS : Type.
Variable E : Env FS.
Variables input_dir output_dir : str.
Variable threshold : float.
Variable model : classifier.
Variable just_by_file_name : bool.
Hypothesis laws : FSLaws E.

(** X21: when the turn of the loop for an accepted document completes,
    the document has its copy: the mirrored target path exists, and no path
    that existed before has disappeared. *)
Theorem move_files_copies_accepted
    (w : world FS) (pp : option (list float)) (row : str * str)
    (w' : world FS) (pp' : option (list float)) :
  supported E row ->
  accepts E threshold model just_by_file_name row = true ->
  process_row E input_dir output_dir threshold model just_by_file_name w pp row
    = Next w' pp' ->
  os_path_exists E (fs w') (target_file_of E input_dir output_dir row) = true /\
  keeps E w w'.
Proof.
  intros Hsup Haccept Hstep.
  destruct (@step_next FS E input_dir output_dir threshold model just_by_file_name
              laws w pp row w' pp' Hstep) as [Hkeeps [Htarget _]].
  split; [now apply Htarget | exact Hkeeps].
Qed.

End CopyFacts.

Lemma move_files_never_copies_rejected_witness :
  accepts (Demo.env Demo.one_doc None) Demo.half
          (Demo.constant_model Demo.quarter) false Demo.long_doc = false /\
  fs (world_of (process_row (Demo.env Demo.one_doc None) Demo.in_dir Demo.out_dir
                            Demo.half (Demo.constant_model Demo.quarter) false
                            Demo.start None Demo.long_doc)) = fs Demo.start.
Proof.
  split; [reflexivity |].
  destruct (@move_files_never_copies_rejected
              Demo.paths (Demo.env Demo.one_doc None) Demo.in_dir Demo.out_dir
              Demo.half (Demo.constant_model Demo.quarter) false Demo.start None
              Demo.long_doc eq_refl) as [H _].
  exact H.
Defined.

Lemma move_files_logs_own_probability_witness :
  exists label p rest,
    Demo.constant_model Demo.quarter [one_text_pre_process (repeat 35797 60)]
      = Ok ((fst p, snd p) :: rest) /\
    labelled Demo.half (snd p) label /\
    Some [Demo.quarter] = Some (snd p :: map snd rest) /\
    name_log (world_of (process_row (Demo.env Demo.one_doc None) Demo.in_dir
                                    Demo.out_dir Demo.half
                                    (Demo.constant_model Demo.quarter) false
                                    Demo.start None Demo.long_doc))
      = name_log Demo.start /\
    move_log (world_of (process_row (Demo.env Demo.one_doc None) Demo.in_dir
                                    Demo.out_dir Demo.half
                                    (Demo.constant_model Demo.quarter) false
                                    Demo.start None Demo.long_doc))
      = move_log Demo.start ++ [{| line_predict := PInt label;
                                   line_probability := snd p;
                                   line_path := py "in/long.doc" |}].
Proof.
  apply (@move_files_logs_own_probability
           Demo.paths (Demo.env Demo.one_doc None) Demo.in_dir Demo.out_dir
           Demo.half (Demo.constant_model Demo.quarter) false Demo.start None
           Demo.long_doc (repeat 35797 60)); reflexivity.
Defined.

Lemma move_files_classifier_error_witness :
  move_files_loop (Demo.env Demo.one_doc None) Demo.in_dir Demo.out_dir Demo.half
                  Demo.broken_model false Demo.start None
                  [Demo.long_doc; Sample.latin_doc]
  = (add_event (add_event Demo.start (CallExtract (py "in/long.doc") (py ".doc")))
               (CallPredict [one_text_pre_process (repeat 35797 60)]),
     Raised (OtherError 3)).
Proof.
  apply (@move_files_classifier_error
           Demo.paths (Demo.env Demo.one_doc None) Demo.in_dir Demo.out_dir
           Demo.half Demo.broken_model false Demo.start None Demo.long_doc
           (repeat 35797 60) [Sample.latin_doc] (OtherError 3)); reflexivity.
Defined.


Lemma move_files_copies_accepted_witness :
  accepts (Demo.env Demo.one_doc None) Demo.half
          (Demo.constant_model Demo.three_quarters) false Demo.long_doc = true /\
  os_path_exists (Demo.env Demo.one_doc None)
    (fs (world_of (process_row (Demo.env Demo.one_doc None) Demo.in_dir Demo.out_dir
                               Demo.half (Demo.constant_model Demo.three_quarters)
                               false Demo.start None Demo.long_doc)))
    (py "out/./long.doc") = true.
Proof.
  split; [reflexivity |].
  destruct (@move_files_copies_accepted
              Demo.paths (Demo.env Demo.one_doc None) Demo.in_dir Demo.out_dir
              Demo.half (Demo.constant_model Demo.three_quarters) false
              (demo_laws Demo.one_doc) Demo.start None Demo.long_doc
              (world_of (process_row (Demo.env Demo.one_doc None) Demo.in_dir
                                     Demo.out_dir Demo.half
                                     (Demo.constant_model Demo.three_quarters)
                                     false Demo.start None Demo.long_doc))
              (Some [Demo.three_quarters]) eq_refl eq_refl eq_refl) as [H _].
  exact H.
Defined.

(* ================================================================== *)
(** * Further properties of the download *)

Section MoreDownloadFacts.

Variable requests_get : str -> Z -> result response.
Variable int_of_str : str -> result Z.

Local Abbreviation download := (download_model requests_get int_of_str).

(** X22: [download_model] touches two files only: every file other than
    the model file and its [.tmp] sibling is left as it was, however the call
    ends. *)
Theorem download_model_other_files
    (model_name download_url : str) (f : files) (name : str) :
  name <> model_name -> name <> model_name ++ py ".tmp" ->
  dl_files (download model_name download_url f) name = f name.
Proof.
  intros Hmodel Htemp. unfold download_model, raised.
  destruct (f model_name); [reflexivity |].
  destruct (requests_get download_url _) as [r | e]; [| reflexivity].
  destruct (status_error r); [reflexivity |].
  destruct (content_range r) as [header |]; [| reflexivity].
  destruct (nth_error (str_split 47 header) 1) as [size |]; [| reflexivity].
  destruct (int_of_str size) as [total_size | e]; [| reflexivity].
  destruct (stream_error r); cbn [dl_files]; unfold file_write, file_remove;
    now rewrite ?(str_eqb_neq Hmodel), ?(str_eqb_neq Htemp).
Qed.

Lemma download_model_done_iff_model_local
    (model_name download_url : str) (f : files) :
  dl_outcome (download model_name download_url f) = Done <->
  exists data, dl_files (download model_name download_url f) model_name = Some data.
Proof.
  unfold download_model, raised.
  destruct (f model_name) as [data |] eqn:Hmodel.
  { cbn. split; [intros _; now exists data | reflexivity]. }
  assert (Hno : forall e,
            Raised e = Done <-> exists data : list Z, f model_name = Some data).
  { intros e. split; [discriminate |]. intros [data H]. congruence. }
  destruct (requests_get download_url _) as [r | e]; [| apply Hno].
  destruct (status_error r); [apply Hno |].
  destruct (content_range r) as [header |]; [| apply Hno].
  destruct (nth_error (str_split 47 header) 1) as [size |]; [| apply Hno].
  destruct (int_of_str size) as [total_size | e]; [| apply Hno].
  destruct (stream_error r); cbn [dl_files dl_outcome]; unfold file_write.
  - rewrite (str_eqb_neq (@temp_name_differs model_name)). apply Hno.
  - rewrite str_eqb_refl. split; [intros _; eauto | reflexivity].
Qed.

(** X23: after a call of [download_model] the model file exists exactly
    when the call returned normally: a call that raises leaves no model
    file, so that the next call downloads again. *)
Theorem download_model_done_iff_model
    (model_name download_url : str) (f : files) :
  dl_outcome (download model_name download_url f) = Done <->
  exists data, dl_files (download model_name download_url f) model_name = Some data.
Proof.
  exact (download_model_done_iff_model_local model_name download_url f).
Qed.

(** X24: when the stream breaks, what was received is kept: the [.tmp]
    file holds the bytes it had followed by the chunks received, the
    exception is raised again, and there is no model file. *)
Theorem download_model_keeps_progress
    (model_name download_url header size : str) (f : files) (r : response)
    (total_size : Z) (e : exn) :
  f model_name = None ->
  requests_get download_url
    (Z.of_nat (List.length (on_disk f (model_name ++ py ".tmp")))) = Ok r ->
  status_error r = None ->
  content_range r = Some header ->
  nth_error (str_split 47 header) 1 = Some size ->
  int_of_str size = Ok total_size ->
  stream_error r = Some e ->
  dl_outcome (download model_name download_url f) = Raised e /\
  dl_files (download model_name download_url f) (model_name ++ py ".tmp")
    = Some (on_disk f (model_name ++ py ".tmp") ++ List.concat (chunks r)) /\
  dl_files (download model_name download_url f) model_name = None.
Proof.
  unfold on_disk. intros Hmodel Hget Hstatus Hheader Hsize Hint Hstream.
  unfold download_model, raised. rewrite Hmodel.
  destruct (f (model_name ++ py ".tmp")) as [old |] eqn:Htemp;
    change (Z.of_nat (@List.length Z [])) with 0 in *;
    rewrite Hget, Hstatus, Hheader, Hsize, Hint, Hstream;
    cbn [dl_outcome dl_files]; unfold file_write;
    rewrite str_eqb_refl, (str_eqb_neq (@temp_name_differs model_name));
    now rewrite Hmodel.
Qed.

(** X25: a download resumes where it stopped: when the server answers
    the request from the size of the [.tmp] file (0 when there is none) with
    all the bytes that are left, the model file is what was on disk followed
    by what was received, it has the announced size, the [.tmp] file is gone
    and no error is printed. *)
Theorem download_model_resumes
    (model_name download_url header size : str) (f : files) (r : response)
    (total_size : Z) :
  f model_name = None ->
  requests_get download_url
    (Z.of_nat (List.length (on_disk f (model_name ++ py ".tmp")))) = Ok r ->
  status_error r = None ->
  content_range r = Some header ->
  nth_error (str_split 47 header) 1 = Some size ->
  int_of_str size = Ok total_size ->
  stream_error r = None ->
  Z.of_nat (List.length (List.concat (chunks r))) =
    total_size - Z.of_nat (List.length (on_disk f (model_name ++ py ".tmp"))) ->
  dl_files (download model_name download_url f) model_name
    = Some (on_disk f (model_name ++ py ".tmp") ++ List.concat (chunks r)) /\
  Z.of_nat (List.length (on_disk f (model_name ++ py ".tmp")
                         ++ List.concat (chunks r))) = total_size /\
  dl_files (download model_name download_url f) (model_name ++ py ".tmp") = None /\
  dl_outcome (download model_name download_url f) = Done /\
  dl_printed_error (download model_name download_url f) = false.
Proof.
  unfold on_disk. intros Hmodel Hget Hstatus Hheader Hsize Hint Hstream Hlen.
  unfold download_model. rewrite Hmodel.
  destruct (f (model_name ++ py ".tmp")) as [old |] eqn:Htemp;
    change (Z.of_nat (@List.length Z [])) with 0 in *;
    rewrite Hget, Hstatus, Hheader, Hsize, Hint, Hstream;
    cbn [dl_outcome dl_files dl_printed_error]; unfold file_write, file_remove;
    rewrite !str_eqb_refl,
      (str_eqb_neq (not_eq_sym (@temp_name_differs model_name)));
    rewrite written_length, length_app;
    cbn [List.length];
    (split; [reflexivity |]); (split; [lia |]); (split; [reflexivity |]);
    (split; [reflexivity |]).
  - replace (Z.of_nat (List.length old) +
             Z.of_nat (List.length (List.concat (chunks r)))) with total_size by lia.
    rewrite Z.eqb_refl. apply andb_false_r.
  - replace (0 + Z.of_nat (List.length (List.concat (chunks r))))
      with total_size by lia.
    rewrite Z.eqb_refl. apply andb_false_r.
Qed.

End MoreDownloadFacts.

(** X26: once a call of [download_model] has returned normally, a
    further call for the same model does nothing, whatever the server: no
    file changes and nothing is printed. *)
Theorem download_model_twice
    (requests_get requests_get' : str -> Z -> result response)
    (int_of_str int_of_str' : str -> result Z)
    (model_name download_url download_url' : str) (f : files) :
  dl_outcome (download_model requests_get int_of_str model_name download_url f)
    = Done ->
  download_model requests_get' int_of_str' model_name download_url'
    (dl_files (download_model requests_get int_of_str model_name download_url f))
  = {| dl_files :=
         dl_files (download_model requests_get int_of_str model_name download_url f);
       dl_outcome := Done;
       dl_printed_error := false |}.
Proof.
  intros Hdone.
  apply download_model_done_iff_model_local in Hdone.
  destruct Hdone as [data Hdata].
  unfold download_model at 1. now rewrite Hdata.
Qed.

Lemma download_model_other_files_witness :
  dl_files (download_model Sample.good_server Demo.int_of_digits (py "m.pkl")
                           (py "url") Demo.partial) (py "other.bin")
  = Demo.partial (py "other.bin").
Proof.
  apply (@download_model_other_files Sample.good_server Demo.int_of_digits
           (py "m.pkl") (py "url") Demo.partial (py "other.bin"));
    vm_compute; discriminate.
Defined.

Lemma download_model_keeps_progress_witness :
  dl_outcome (download_model Sample.breaking_server Demo.int_of_digits (py "m.pkl")
                             (py "url") Demo.partial) = Raised (OtherError 104) /\
  dl_files (download_model Sample.breaking_server Demo.int_of_digits (py "m.pkl")
                           (py "url") Demo.partial) (py "m.pkl.tmp")
    = Some ([7; 7] ++ [7; 7; 7; 7]) /\
  dl_files (download_model Sample.breaking_server Demo.int_of_digits (py "m.pkl")
                           (py "url") Demo.partial) (py "m.pkl") = None.
Proof.
  apply (@download_model_keeps_progress Sample.breaking_server Demo.int_of_digits
           (py "m.pkl") (py "url") (py "bytes 2-9/10") (py "10") Demo.partial
           {| status_error := None; content_range := Some (py "bytes 2-9/10");
              chunks := [[7; 7; 7; 7]]; stream_error := Some (OtherError 104) |}
           10 (OtherError 104)); reflexivity.
Defined.

Lemma download_model_resumes_witness :
  dl_files (download_model Sample.good_server Demo.int_of_digits (py "m.pkl")
                           (py "url") Demo.partial) (py "m.pkl")
    = Some ([7; 7] ++ [7; 7; 7; 7; 7; 7; 7; 7]) /\
  Z.of_nat (List.length ([7; 7] ++ [7; 7; 7; 7; 7; 7; 7; 7])) = 10 /\
  dl_files (download_model Sample.good_server Demo.int_of_digits (py "m.pkl")
                           (py "url") Demo.partial) (py "m.pkl.tmp") = None /\
  dl_outcome (download_model Sample.good_server Demo.int_of_digits (py "m.pkl")
                             (py "url") Demo.partial) = Done /\
  dl_printed_error (download_model Sample.good_server Demo.int_of_digits
                                   (py "m.pkl") (py "url") Demo.partial) = false.
Proof.
  apply (@download_model_resumes Sample.good_server Demo.int_of_digits
           (py "m.pkl") (py "url") (py "bytes 2-9/10") (py "10") Demo.partial
           {| status_error := None; content_range := Some (py "bytes 2-9/10");
              chunks := [[7; 7; 7; 7]; [7; 7; 7; 7]]; stream_error := None |}
           10); reflexivity.
Defined.

Lemma download_model_twice_witness :
  dl_outcome (download_model Sample.good_server Demo.int_of_digits (py "m.pkl")
                             (py "url") Demo.partial) = Done /\
  dl_outcome
    (download_model Sample.breaking_server Demo.int_of_digits (py "m.pkl") (py "url")
       (dl_files (download_model Sample.good_server Demo.int_of_digits (py "m.pkl")
                                 (py "url") Demo.partial))) = Done.
Proof.
  split; [reflexivity |].
  rewrite (@download_model_twice Sample.good_server Sample.breaking_server
             Demo.int_of_digits Demo.int_of_digits (py "m.pkl") (py "url") (py "url")
             Demo.partial eq_refl).
  reflexivity.
Defined.

(* ================================================================== *)
(** * Properties of the path rewriting *)

Section PathFacts.

Lemma str_split_aux_no_sep (sep : Z) (s : str) :
  forall cur, ~ In sep s -> str_split_aux sep cur s = [rev cur ++ s].
Proof.
  induction s as [| c s IH]; intros cur H; cbn [str_split_aux].
  - now rewrite app_nil_r.
  - destruct (Z.eqb_spec c sep) as [-> | Hne]; [exfalso; apply H; now left |].
    rewrite IH by (intros Hin; apply H; now right).
    cbn [rev]. now rewrite <- app_assoc.
Qed.

Lemma last_split_aux (sep : Z) (s t : str) :
  forall cur, ~ In sep t -> last (str_split_aux sep cur (s ++ sep :: t)) [] = t.
Proof.
  induction s as [| c s IH]; intros cur Ht; cbn [app str_split_aux].
  - rewrite Z.eqb_refl. rewrite str_split_aux_no_sep by exact Ht. reflexivity.
  - destruct (c =? sep).
    + specialize (IH [] Ht).
      destruct (str_split_aux sep [] (s ++ sep :: t)) eqn:Hsplit; [| exact IH].
      exfalso. clear - Hsplit. revert Hsplit. generalize (@nil Z).
      induction (s ++ sep :: t) as [| d u IHu]; intros cur; cbn [str_split_aux];
        [discriminate |].
      destruct (d =? sep); [discriminate | apply IHu].
    + apply IH. exact Ht.
Qed.

Lemma str_replace_aux_skip (old new m : str) :
  forall t, str_replace_aux old new (List.length m) (m ++ t)
            = str_replace_aux old new 0 t.
Proof.
  induction m as [| c m IH]; intros t; [reflexivity |]. cbn. apply IH.
Qed.

(** At an occurrence of [old], [new] is written and the occurrence is
    passed over. *)
Lemma str_replace_aux_match (h : Z) (old new t : str) :
  str_replace_aux (h :: old) new 0 ((h :: old) ++ t)
  = new ++ str_replace_aux (h :: old) new 0 t.
Proof.
  cbn [app str_replace_aux]. change (h :: old ++ t) with ((h :: old) ++ t).
  rewrite startswith_app. f_equal.
  replace (List.length (h :: old) - 1)%nat with (List.length old)
    by (cbn [List.length]; lia).
  apply str_replace_aux_skip.
Qed.

Lemma str_replace_aux_other (h : Z) (old new pre t : str) :
  ~ In h pre ->
  str_replace_aux (h :: old) new 0 (pre ++ t)
  = pre ++ str_replace_aux (h :: old) new 0 t.
Proof.
  induction pre as [| c pre IH]; intros H; [reflexivity |].
  cbn [app str_replace_aux startswith].
  destruct (Z.eqb_spec h c) as [-> | Hne]; [exfalso; apply H; now left |].
  cbn [andb]. f_equal. apply IH. intros Hin. apply H. now right.
Qed.

(** X27: for a path without a slash, [change_last_folder_name] returns
    the new name. *)
Theorem change_last_folder_name_single (path new_folder_name : str) :
  ~ In 47 path -> change_last_folder_name path new_folder_name = new_folder_name.
Proof.
  intros H. unfold change_last_folder_name, str_split.
  rewrite str_split_aux_no_sep by exact H. cbn [rev app last].
  unfold str_replace. destruct path as [| h path]; [apply app_nil_r |].
  rewrite <- (app_nil_r (h :: path)) at 2.
  rewrite str_replace_aux_match. apply app_nil_r.
Qed.

(** X28: for a path that ends with a slash the last folder is the empty
    string, and [change_last_folder_name] puts the new name before every
    character of the path and at its end. *)
Theorem change_last_folder_name_trailing_slash (directory new_folder_name : str) :
  change_last_folder_name (directory ++ [47]) new_folder_name =
  new_folder_name ++ flat_map (fun c => c :: new_folder_name) (directory ++ [47]).
Proof.
  unfold change_last_folder_name, str_split.
  rewrite last_split_aux by (intros []). reflexivity.
Qed.

(** X29: when the first character of the last folder occurs nowhere in
    the directory part, [change_last_folder_name] rewrites the last folder
    and nothing else. *)
Theorem change_last_folder_name_last
    (directory : str) (h : Z) (name new_folder_name : str) :
  ~ In 47 (h :: name) -> ~ In h directory ->
  change_last_folder_name (directory ++ [47] ++ h :: name) new_folder_name =
  directory ++ [47] ++ new_folder_name.
Proof.
  intros Hslash Hdir. unfold change_last_folder_name, str_split.
  cbn [app]. rewrite last_split_aux by exact Hslash.
  unfold str_replace.
  rewrite str_replace_aux_other by exact Hdir.
  replace (47 :: h :: name) with ([47] ++ (h :: name) ++ [])
    by (cbn [app]; now rewrite app_nil_r).
  rewrite str_replace_aux_other.
  - rewrite str_replace_aux_match. cbn [str_replace_aux app].
    now rewrite app_nil_r.
  - intros [Heq | []]. apply Hslash. left. now symmetry.
Qed.

(** X30: the folder is replaced wherever its name occurs: a path whose
    two folders have the same name gets the new name twice. *)
Theorem change_last_folder_name_repeated (h : Z) (name new_folder_name : str) :
  ~ In 47 (h :: name) ->
  change_last_folder_name ((h :: name) ++ [47] ++ h :: name) new_folder_name =
  new_folder_name ++ [47] ++ new_folder_name.
Proof.
  intros Hslash. unfold change_last_folder_name, str_split.
  change ((h :: name) ++ [47] ++ h :: name) with ((h :: name) ++ 47 :: h :: name).
  rewrite last_split_aux by exact Hslash.
  unfold str_replace. rewrite str_replace_aux_match. f_equal.
  replace (47 :: h :: name) with ([47] ++ (h :: name) ++ [])
    by (cbn [app]; now rewrite app_nil_r).
  rewrite str_replace_aux_other.
  - rewrite str_replace_aux_match. cbn [str_replace_aux app].
    now rewrite app_nil_r.
  - intros [Heq | []]. apply Hslash. left. now symmetry.
Qed.

End PathFacts.

Lemma change_last_folder_name_single_witness :
  change_last_folder_name (py "drafts") (py "final") = py "final".
Proof.
  apply (@change_last_folder_name_single (py "drafts") (py "final")).
  not_in_literal.
Defined.

Lemma change_last_folder_name_last_witness :
  change_last_folder_name (py "a/b" ++ [47] ++ 100 :: py "rafts") (py "final")
  = py "a/b" ++ [47] ++ py "final".
Proof.
  apply (@change_last_folder_name_last (py "a/b") 100 (py "rafts") (py "final"));
    not_in_literal.
Defined.

Lemma change_last_folder_name_repeated_witness :
  change_last_folder_name ((100 :: py "ata") ++ [47] ++ 100 :: py "ata") (py "new")
  = py "new" ++ [47] ++ py "new".
Proof.
  apply (@change_last_folder_name_repeated 100 (py "ata") (py "new")).
  not_in_literal.
Defined.
